(** * Admission control of [AppGenerateService]

    A shallow embedding of [api/services/app_generate_service.py]: the
    tenant rate gate, the per-application concurrency ticket and the
    [try/except/finally] statement that ties the ticket to the outcome of the
    generation strategy.

    The service is written against collaborators that live in other files
    ([libs.helper.RateLimiter], [core.app.features.rate_limiting.RateLimit],
    the billing and workflow services, the app generators).  The two limiters
    are modelled from the specification, the remaining collaborators are
    fields of an environment record. *)

From Stdlib Require Import ZArith List String Bool Lia DecimalString.
From stdpp Require Import base gmap sets strings.

Local Open Scope Z_scope.

(** ** Python exceptions and outcomes *)

(** The errors that reach [generate].  [OtherException] stands for an
    instance of Python's [Exception] of a class the service does not name;
    [NonException] stands for an error outside that class ([SystemExit],
    [KeyboardInterrupt], [GreenletExit]), which a clause [except Exception]
    does not match.  Every other constructor is an instance of
    [Exception]. *)
Inductive PyException : Type :=
| RateLimitError (message : string)          (* openai._exceptions.RateLimitError *)
| InvokeRateLimitError (description : string) (* services.errors.llm *)
| ValueError (message : string)
| ConcurrencyLimitExceeded (client : string) (ceiling : Z)
| OtherException (cls message : string)
| NonException (cls message : string).

(** Formatting of an integer inside an f-string. *)
Definition format_int (n : Z) : string := NilZero.string_of_int (Z.to_int n).

(** [str(e)].  The service reads the text of the throttling error only; the
    text of the concurrency error is not fixed by the specification and is
    rendered from the data the error carries. *)
Definition str (e : PyException) : string :=
  match e with
  | RateLimitError m => m
  | InvokeRateLimitError m => m
  | ValueError m => m
  | ConcurrencyLimitExceeded c n => c +:+ ": " +:+ format_int n
  | OtherException _ m => m
  | NonException _ m => m
  end.

(** [isinstance(e, RateLimitError)], the test of the first [except] clause. *)
Definition is_RateLimitError (e : PyException) : bool :=
  match e with RateLimitError _ => true | _ => false end.

(** [isinstance(e, Exception)], the test of the second [except] clause. *)
Definition is_Exception (e : PyException) : bool :=
  match e with NonException _ _ => false | _ => true end.

(** The outcome of a call: a returned value or a raised exception. *)
Inductive Res (A : Type) : Type :=
| Return (a : A)
| Raise (e : PyException).
Arguments Return {A} a.
Arguments Raise {A} e.

(** ** The tenant rate limiter *)

Module RateLimiter.

(** [RateLimiter(prefix, max_attempts, time_window)]. *)
Record t : Type := Build {
  prefix : string;
  max_attempts : Z;
  time_window : Z
}.

(** The counter of a tenant in the current window; a missing counter
    reads as zero. *)
Definition attempts (counters : gmap string Z) (tenant : string) : Z :=
  default 0 (counters !! tenant).

(** Modelled from the spec: [libs.helper.RateLimiter.is_rate_limited] is
    missing from the sources.  It reads the counter of the tenant and
    answers true when the count has reached the configured ceiling; it
    never raises. *)
Definition is_rate_limited (l : t) (tenant : string) (counters : gmap string Z) : bool :=
  max_attempts l <=? attempts counters tenant.

(** Modelled from the spec: [libs.helper.RateLimiter.increment_rate_limit]
    is missing from the sources.  It increases the counter of the tenant
    by one.  The window does not expire during one call of the service,
    so the expiry is not part of the state. *)
Definition increment_rate_limit (l : t) (tenant : string) (counters : gmap string Z)
  : gmap string Z :=
  <[tenant := attempts counters tenant + 1]> counters.

End RateLimiter.

(** ** The per-application concurrency governor *)

Module RateLimit.

(** [RateLimit(client_id, max_active_requests)]. *)
Record t : Type := Build {
  client_id : string;
  max_active_requests : Z
}.

(** An admission ticket: the owning application and the request token. *)
Definition ticket (l : t) (request_id : string) : string * string :=
  (client_id l, request_id).

(** The active tickets of one application. *)
Definition active_of (l : t) (tickets : gset (string * string)) : gset (string * string) :=
  filter (λ k, k.1 = client_id l) tickets.

(** The admission test: ceiling 0 admits unconditionally, otherwise the
    active set of the application must be below the ceiling. *)
Definition has_room (l : t) (tickets : gset (string * string)) : bool :=
  (max_active_requests l =? 0)
  || (Z.of_nat (size (active_of l tickets)) <? max_active_requests l).

(** Modelled from the spec: [RateLimit.enter] is missing from the sources.
    When there is room the token joins the active set and is returned;
    otherwise the call fails with the concurrency error, which carries the
    application and the ceiling. *)
Definition enter (l : t) (request_id : string) (tickets : gset (string * string))
  : Res string * gset (string * string) :=
  if has_room l tickets
  then (Return request_id, {[ticket l request_id]} ∪ tickets)
  else (Raise (ConcurrencyLimitExceeded (client_id l) (max_active_requests l)), tickets).

(** Modelled from the spec: [RateLimit.exit] is missing from the sources.
    It removes the token from the active set when it is there and returns
    nothing. *)
Definition exit (l : t) (request_id : string) (tickets : gset (string * string))
  : Res unit * gset (string * string) :=
  (Return tt, tickets ∖ {[ticket l request_id]}).

End RateLimit.

(** ** The data the service handles *)

(** Modelled from the spec: the enumeration [models.model.AppMode] is
    missing from the sources; the specification names the mode values. *)
Module AppMode.
Definition COMPLETION : string := "completion".
Definition AGENT_CHAT : string := "agent-chat".
Definition CHAT : string := "chat".
Definition ADVANCED_CHAT : string := "advanced-chat".
Definition WORKFLOW : string := "workflow".

(** The closed set of modes [generate] dispatches on. *)
Definition supported : list string :=
  [COMPLETION; AGENT_CHAT; CHAT; ADVANCED_CHAT; WORKFLOW].
End AppMode.

(** Modelled from the spec: [InvokeFrom] is missing from the sources; the
    service only tells the debugger from every other (normal) source. *)
Inductive InvokeFrom : Type := DEBUGGER | NORMAL.

Definition is_debugger (i : InvokeFrom) : bool :=
  match i with DEBUGGER => true | NORMAL => false end.

(** The attributes of [models.model.App] that the service reads. *)
Record App : Type := {
  app_id : string;
  tenant_id : string;
  mode : string;
  is_agent : bool;
  max_active_requests : option Z
}.

(** The five app generators. *)
Inductive AppGenerator : Type :=
| CompletionAppGenerator
| AgentChatAppGenerator
| ChatAppGenerator
| AdvancedChatAppGenerator
| WorkflowAppGenerator.

Section Service.

(** Users, request arguments, workflow definitions and produced payloads
    are opaque to the service. *)
Context {User Args Workflow Payload : Type}.

(** What a generation strategy produces: a synchronous result or a lazy
    sequence of events. *)
Inductive GenerationOutput : Type :=
| Blocking (result : Payload)
| Events (events : list Payload).

(** What [generate] hands back: [rate_limit.generate] returns a mapping
    as it is and wraps a generator together with the ticket. *)
Inductive Response : Type :=
| Plain (result : Payload)
| RateLimitGenerator (rate_limit : RateLimit.t) (generator : list Payload)
    (request_id : string).

(** One invocation of a generation strategy, with its arguments. *)
Inductive StrategyCall : Type :=
| Generate (g : AppGenerator) (app_model : App) (workflow : option Workflow)
    (user : User) (args : Args) (invoke_from : InvokeFrom) (streaming : bool)
| SingleIterationGenerate (g : AppGenerator) (app_model : App) (workflow : Workflow)
    (node_id : string) (user : User) (args : Args) (streaming : bool)
| SingleLoopGenerate (g : AppGenerator) (app_model : App) (workflow : Workflow)
    (node_id : string) (user : User) (args : Args) (streaming : bool)
| GenerateMoreLikeThis (app_model : App) (message_id : string) (user : User)
    (invoke_from : InvokeFrom) (stream : bool).

(** The calls the service makes on its collaborators, in program order. *)
Inductive Call : Type :=
| BillingGetInfo (tenant : string)
| IsRateLimited (tenant : string)
| IncrementRateLimit (tenant : string)
| Enter (client : string) (request_id : string)
| Exit (client : string) (request_id : string)
| GetDraftWorkflow (app : string)
| GetPublishedWorkflow (app : string)
| Invoke (c : StrategyCall).

Definition is_invoke (c : Call) : bool :=
  match c with Invoke _ => true | _ => false end.

Definition is_tenant_limiter_call (c : Call) : bool :=
  match c with IsRateLimited _ | IncrementRateLimit _ => true | _ => false end.

Definition is_ticket_call (c : Call) : bool :=
  match c with Enter _ _ | Exit _ _ => true | _ => false end.

Definition is_exit_call (c : Call) : bool :=
  match c with Exit _ _ => true | _ => false end.

(** Configuration and collaborators. *)
Record Env : Type := {
  BILLING_ENABLED : bool;
  APP_DAILY_RATE_LIMIT : Z;
  APP_MAX_ACTIVE_REQUESTS : Z;
  (* BillingService.get_info(tenant)["subscription"]["plan"] *)
  subscription_plan : string -> string;
  get_draft_workflow : App -> option Workflow;
  get_published_workflow : App -> option Workflow;
  (* the outcome of running a strategy *)
  run : StrategyCall -> Res GenerationOutput;
  convert_to_event_stream : AppGenerator -> GenerationOutput -> GenerationOutput;
  (* the n-th key drawn by RateLimit.gen_request_key() *)
  uuid4 : nat -> string
}.

(** The shared state: the tenant counters, the active tickets, the number
    of request keys drawn so far and the calls made so far. *)
Record State : Type := {
  counters : gmap string Z;
  tickets : gset (string * string);
  drawn : nat;
  calls : list Call
}.

Definition log (c : Call) (st : State) : State :=
  {| counters := counters st; tickets := tickets st; drawn := drawn st;
     calls := calls st ++ [c] |}.

Definition set_counters (cs : gmap string Z) (st : State) : State :=
  {| counters := cs; tickets := tickets st; drawn := drawn st; calls := calls st |}.

Definition set_tickets (ts : gset (string * string)) (st : State) : State :=
  {| counters := counters st; tickets := ts; drawn := drawn st; calls := calls st |}.

(** *** A state and exception monad *)

Definition M (A : Type) : Type := State -> Res A * State.

Definition ret {A} (a : A) : M A := fun st => (Return a, st).

Definition raise {A} (e : PyException) : M A := fun st => (Raise e, st).

Definition bind {A B} (m : M A) (k : A -> M B) : M B :=
  fun st =>
    match m st with
    | (Return a, st1) => k a st1
    | (Raise e, st1) => (Raise e, st1)
    end.

Notation "'do' x <- m ; k" := (bind m (fun x => k))
  (at level 10, x name, m at level 100, k at level 200).

(** [try: x = acquire(x); body  except ...  finally ...], where the
    handlers and the final block read the variable [x]: it still holds
    its old value when [acquire] raised, and the acquired value after.
    An exception raised inside a handler is not offered to the other
    handlers; the final block runs on every outcome and, when it raises,
    its exception replaces the pending outcome. *)
Definition try_except_finally {A} (x : string) (acquire : M string)
    (body : string -> M A) (except : string -> PyException -> M A)
    (finally : string -> M unit) : M A :=
  fun st =>
    let '(x, r, st1) :=
      match acquire st with
      | (Raise e, st1) => (x, Raise e, st1)
      | (Return x', st1) => let '(r, st2) := body x' st1 in (x', r, st2)
      end in
    let '(r, st2) :=
      match r with
      | Return a => (Return a, st1)
      | Raise e => except x e st1
      end in
    match finally x st2 with
    | (Return _, st3) => (r, st3)
    | (Raise e, st3) => (Raise e, st3)
    end.

Variable env : Env.

(** *** Collaborator calls, lifted to the monad *)

Definition BillingService_get_info (tenant : string) : M string :=
  fun st => (Return (subscription_plan env tenant), log (BillingGetInfo tenant) st).

Definition is_rate_limited (l : RateLimiter.t) (tenant : string) : M bool :=
  fun st =>
    (Return (RateLimiter.is_rate_limited l tenant (counters st)),
     log (IsRateLimited tenant) st).

Definition increment_rate_limit (l : RateLimiter.t) (tenant : string) : M unit :=
  fun st =>
    (Return tt,
     log (IncrementRateLimit tenant)
       (set_counters (RateLimiter.increment_rate_limit l tenant (counters st)) st)).

Definition gen_request_key : M string :=
  fun st =>
    (Return (uuid4 env (drawn st)),
     {| counters := counters st; tickets := tickets st; drawn := S (drawn st);
        calls := calls st |}).

Definition enter (l : RateLimit.t) (request_id : string) : M string :=
  fun st =>
    let '(r, ts) := RateLimit.enter l request_id (tickets st) in
    (r, log (Enter (RateLimit.client_id l) request_id) (set_tickets ts st)).

Definition exit (l : RateLimit.t) (request_id : string) : M unit :=
  fun st =>
    let '(r, ts) := RateLimit.exit l request_id (tickets st) in
    (r, log (Exit (RateLimit.client_id l) request_id) (set_tickets ts st)).

Definition invoke (c : StrategyCall) : M GenerationOutput :=
  fun st => (run env c, log (Invoke c) st).

(** Modelled from the spec: [RateLimit.generate] is missing from the
    sources.  A synchronous result is returned as it is; a lazy sequence
    is wrapped with the ticket, whose release is deferred to the end of
    the sequence. *)
Definition rate_limit_generate (l : RateLimit.t) (generator : GenerationOutput)
    (request_id : string) : Response :=
  match generator with
  | Blocking result => Plain result
  | Events events => RateLimitGenerator l events request_id
  end.

(** *** The service *)

(** [AppGenerateService.system_rate_limiter]. *)
Definition system_rate_limiter : RateLimiter.t :=
  RateLimiter.Build "app_daily_rate_limiter" (APP_DAILY_RATE_LIMIT env) 86400.

(** [_get_max_active_requests]. *)
Definition _get_max_active_requests (app : App) : Z :=
  let app_limit := default 0 (max_active_requests app) in
  let config_limit := APP_MAX_ACTIVE_REQUESTS env in
  let limits := List.filter (fun limit => 0 <? limit) [app_limit; config_limit] in
  match limits with
  | [] => 0
  | l :: ls => fold_right Z.min l ls
  end.

(** [_get_workflow]. *)
Definition _get_workflow (app_model : App) (invoke_from : InvokeFrom) : M Workflow :=
  if is_debugger invoke_from then
    fun st =>
      match get_draft_workflow env app_model with
      | None => (Raise (ValueError "Workflow not initialized"),
                 log (GetDraftWorkflow (app_id app_model)) st)
      | Some workflow => (Return workflow, log (GetDraftWorkflow (app_id app_model)) st)
      end
  else
    fun st =>
      match get_published_workflow env app_model with
      | None => (Raise (ValueError "Workflow not published"),
                 log (GetPublishedWorkflow (app_id app_model)) st)
      | Some workflow => (Return workflow, log (GetPublishedWorkflow (app_id app_model)) st)
      end.

(** The message of the tenant rejection (lines 49-52). *)
Definition rate_limit_message : string :=
  "Rate limit exceeded, please upgrade your plan or your RPD was "
  +:+ format_int (APP_DAILY_RATE_LIMIT env) +:+ " requests/day".

(** The system level rate limiter of [generate] (lines 44-53). *)
Definition system_level_rate_limit (app_model : App) : M unit :=
  if BILLING_ENABLED env then
    (* check if it's free plan *)
    do plan <- BillingService_get_info (tenant_id app_model);
    if String.eqb plan "sandbox" then
      do limited <- is_rate_limited system_rate_limiter (tenant_id app_model);
      if limited : bool then raise (InvokeRateLimitError rate_limit_message)
      else increment_rate_limit system_rate_limiter (tenant_id app_model)
    else ret tt
  else ret tt.

(** The [if/elif] chain on the app mode (lines 61-121).  Every branch
    runs the strategy, converts its output to the event stream and hands
    it to [rate_limit.generate] with the ticket. *)
Definition dispatch (app_model : App) (user : User) (args : Args)
    (invoke_from : InvokeFrom) (streaming : bool) (rate_limit : RateLimit.t)
    (request_id : string) : M Response :=
  if String.eqb (mode app_model) AppMode.COMPLETION then
    do out <- invoke (Generate CompletionAppGenerator app_model None user args
                        invoke_from streaming);
    ret (rate_limit_generate rate_limit
           (convert_to_event_stream env CompletionAppGenerator out) request_id)
  else if String.eqb (mode app_model) AppMode.AGENT_CHAT || is_agent app_model then
    do out <- invoke (Generate AgentChatAppGenerator app_model None user args
                        invoke_from streaming);
    ret (rate_limit_generate rate_limit
           (convert_to_event_stream env AgentChatAppGenerator out) request_id)
  else if String.eqb (mode app_model) AppMode.CHAT then
    do out <- invoke (Generate ChatAppGenerator app_model None user args
                        invoke_from streaming);
    ret (rate_limit_generate rate_limit
           (convert_to_event_stream env ChatAppGenerator out) request_id)
  else if String.eqb (mode app_model) AppMode.ADVANCED_CHAT then
    do workflow <- _get_workflow app_model invoke_from;
    do out <- invoke (Generate AdvancedChatAppGenerator app_model (Some workflow) user
                        args invoke_from streaming);
    ret (rate_limit_generate rate_limit
           (convert_to_event_stream env AdvancedChatAppGenerator out) request_id)
  else if String.eqb (mode app_model) AppMode.WORKFLOW then
    do workflow <- _get_workflow app_model invoke_from;
    do out <- invoke (Generate WorkflowAppGenerator app_model (Some workflow) user
                        args invoke_from streaming);
    ret (rate_limit_generate rate_limit
           (convert_to_event_stream env WorkflowAppGenerator out) request_id)
  else raise (ValueError ("Invalid app mode " +:+ mode app_model)).

(** The two [except] clauses (lines 122-126), tried in order; an error
    that matches neither, one that is not an instance of [Exception], goes
    on to the caller with no handler run. *)
Definition on_exception (rate_limit : RateLimit.t) (request_id : string)
    (e : PyException) : M Response :=
  if is_RateLimitError e then raise (InvokeRateLimitError (str e))
  else if is_Exception e then do _ <- exit rate_limit request_id; raise e
  else raise e.

(** The [finally] block (lines 127-129). *)
Definition on_leave (streaming : bool) (rate_limit : RateLimit.t)
    (request_id : string) : M unit :=
  if negb streaming then exit rate_limit request_id else ret tt.

(** [generate] (lines 26-129). *)
Definition generate (app_model : App) (user : User) (args : Args)
    (invoke_from : InvokeFrom) (streaming : bool) : M Response :=
  (* system level rate limiter *)
  do _ <- system_level_rate_limit app_model;
  (* app level rate limiter *)
  let max_active_request := _get_max_active_requests app_model in
  let rate_limit := RateLimit.Build (app_id app_model) max_active_request in
  do request_id <- gen_request_key;
  try_except_finally request_id
    (enter rate_limit request_id)
    (dispatch app_model user args invoke_from streaming rate_limit)
    (on_exception rate_limit)
    (on_leave streaming rate_limit).

(** [generate_single_iteration] (lines 152-169). *)
Definition generate_single_iteration (app_model : App) (user : User)
    (node_id : string) (args : Args) (streaming : bool) : M GenerationOutput :=
  if String.eqb (mode app_model) AppMode.ADVANCED_CHAT then
    do workflow <- _get_workflow app_model DEBUGGER;
    do out <- invoke (SingleIterationGenerate AdvancedChatAppGenerator app_model
                        workflow node_id user args streaming);
    ret (convert_to_event_stream env AdvancedChatAppGenerator out)
  else if String.eqb (mode app_model) AppMode.WORKFLOW then
    do workflow <- _get_workflow app_model DEBUGGER;
    do out <- invoke (SingleIterationGenerate WorkflowAppGenerator app_model
                        workflow node_id user args streaming);
    ret (convert_to_event_stream env AdvancedChatAppGenerator out)
  else raise (ValueError ("Invalid app mode " +:+ mode app_model)).

(** [generate_single_loop] (lines 171-188). *)
Definition generate_single_loop (app_model : App) (user : User)
    (node_id : string) (args : Args) (streaming : bool) : M GenerationOutput :=
  if String.eqb (mode app_model) AppMode.ADVANCED_CHAT then
    do workflow <- _get_workflow app_model DEBUGGER;
    do out <- invoke (SingleLoopGenerate AdvancedChatAppGenerator app_model
                        workflow node_id user args streaming);
    ret (convert_to_event_stream env AdvancedChatAppGenerator out)
  else if String.eqb (mode app_model) AppMode.WORKFLOW then
    do workflow <- _get_workflow app_model DEBUGGER;
    do out <- invoke (SingleLoopGenerate WorkflowAppGenerator app_model
                        workflow node_id user args streaming);
    ret (convert_to_event_stream env AdvancedChatAppGenerator out)
  else raise (ValueError ("Invalid app mode " +:+ mode app_model)).

(** [generate_more_like_this] (lines 190-210). *)
Definition generate_more_like_this (app_model : App) (user : User)
    (message_id : string) (invoke_from : InvokeFrom) (streaming : bool)
  : M GenerationOutput :=
  invoke (GenerateMoreLikeThis app_model message_id user invoke_from streaming).

(** *** Observations on a run *)

(** The calls made between two states of one run. *)
Definition since (st st' : State) : list Call :=
  drop (length (calls st)) (calls st').

(** The ticket object [generate] builds for an app (lines 56-57). *)
Definition rate_limit_of (app_model : App) : RateLimit.t :=
  RateLimit.Build (app_id app_model) (_get_max_active_requests app_model).

(** The tenant gate lets the request through. *)
Definition tenant_gate_open (app_model : App) (st : State) : bool :=
  negb (BILLING_ENABLED env
        && String.eqb (subscription_plan env (tenant_id app_model)) "sandbox"
        && RateLimiter.is_rate_limited system_rate_limiter (tenant_id app_model)
             (counters st)).

(** The request passes the tenant gate and the governor has room for it. *)
Definition admitted (app_model : App) (st : State) : bool :=
  tenant_gate_open app_model st
  && RateLimit.has_room (rate_limit_of app_model) (tickets st).

(** The state after a successful [enter], after [exit], and after the
    [finally] block. *)
Definition entered (l : RateLimit.t) (request_id : string) (st : State) : State :=
  log (Enter (RateLimit.client_id l) request_id)
    (set_tickets ({[RateLimit.ticket l request_id]} ∪ tickets st) st).

Definition released (l : RateLimit.t) (request_id : string) (st : State) : State :=
  log (Exit (RateLimit.client_id l) request_id)
    (set_tickets (tickets st ∖ {[RateLimit.ticket l request_id]}) st).

Definition left (streaming : bool) (l : RateLimit.t) (request_id : string)
    (st : State) : State :=
  if negb streaming then released l request_id st else st.

(** The request key is drawn. *)
Definition drew (st : State) : State :=
  {| counters := counters st; tickets := tickets st; drawn := S (drawn st);
     calls := calls st |}.

(** The calls of the tenant gate, and the calls of the mode dispatch. *)
Definition is_gate_call (c : Call) : bool :=
  match c with
  | BillingGetInfo _ | IsRateLimited _ | IncrementRateLimit _ => true
  | _ => false
  end.

Definition is_dispatch_call (c : Call) : bool :=
  match c with
  | GetDraftWorkflow _ | GetPublishedWorkflow _ | Invoke _ => true
  | _ => false
  end.

(** How the handlers and the final block of [generate] turn the outcome
    of the dispatch into the outcome of the call. *)
Definition finish (streaming : bool) (l : RateLimit.t) (request_id : string)
    (r : Res Response) (st : State) : Res Response * State :=
  match r with
  | Return a => (Return a, left streaming l request_id st)
  | Raise e =>
      if is_RateLimitError e
      then (Raise (InvokeRateLimitError (str e)), left streaming l request_id st)
      else if is_Exception e
      then (Raise e, left streaming l request_id (released l request_id st))
      else (Raise e, left streaming l request_id st)
  end.

(** The outcome [finish] hands to the caller, and the number of [exit]
    calls it makes. *)
Definition translated (r : Res Response) : Res Response :=
  match r with
  | Return a => Return a
  | Raise e => if is_RateLimitError e then Raise (InvokeRateLimitError (str e)) else Raise e
  end.

Definition releases (streaming : bool) (r : Res Response) : nat :=
  (match r with
   | Return _ => 0
   | Raise e => if is_RateLimitError e then 0 else if is_Exception e then 1 else 0
   end + if streaming then 0 else 1)%nat.

(** What the caller of [dispatch] gets from a strategy call. *)
Definition generator_of (c : StrategyCall) : AppGenerator :=
  match c with
  | Generate g _ _ _ _ _ _ => g
  | SingleIterationGenerate g _ _ _ _ _ _ => g
  | SingleLoopGenerate g _ _ _ _ _ _ => g
  | GenerateMoreLikeThis _ _ _ _ _ => CompletionAppGenerator
  end.

Definition served (l : RateLimit.t) (request_id : string) (c : StrategyCall)
  : Res Response :=
  match run env c with
  | Raise e => Raise e
  | Return out =>
      Return (rate_limit_generate l
                (convert_to_event_stream env (generator_of c) out) request_id)
  end.

(** *** Statements the properties below are measured against *)

(** The effective ceiling in the words of the specification: the minimum
    of the non-zero values among the two limits, and 0 (unlimited) when
    both are zero. *)
Definition effective_ceiling (app_limit config_limit : Z) : Z :=
  match List.filter (fun limit => negb (limit =? 0)) [app_limit; config_limit] with
  | [] => 0
  | l :: ls => fold_right Z.min l ls
  end.

(** "For every app the ceiling of [_get_max_active_requests] is the minimum
    of the non-zero values among the two limits, 0 when both are zero". *)
Definition ceiling_is_min_of_nonzero : Prop :=
  forall app : App,
    _get_max_active_requests app
    = effective_ceiling (default 0 (max_active_requests app))
        (APP_MAX_ACTIVE_REQUESTS env).

(** "Subject to the same admission rules as [generate]": the tenant check
    is applied under the billing condition, and a ticket of the app is
    entered before the strategy is invoked and exited afterwards. *)
Definition same_admission_rules
    (step : App -> User -> string -> Args -> bool -> M GenerationOutput) : Prop :=
  forall app_model user node_id args streaming st,
    let st' := snd (step app_model user node_id args streaming st) in
    (BILLING_ENABLED env
     && String.eqb (subscription_plan env (tenant_id app_model)) "sandbox" = true ->
     In (IsRateLimited (tenant_id app_model)) (since st st'))
    /\ (forall c, In (Invoke c) (since st st') ->
        exists request_id before between after,
          since st st'
          = before ++ Enter (app_id app_model) request_id :: between ++ Invoke c :: after
          /\ In (Exit (app_id app_model) request_id) after).

(** The generator behind each of the two workflow modes. *)
Definition workflow_generator (m : string) : AppGenerator :=
  if String.eqb m AppMode.ADVANCED_CHAT then AdvancedChatAppGenerator
  else WorkflowAppGenerator.

(** The definition an invocation source asks for, the lookup that fetches
    it, and the error raised when it is absent. *)
Definition wanted_workflow (app_model : App) (invoke_from : InvokeFrom)
  : option Workflow :=
  match invoke_from with
  | DEBUGGER => get_draft_workflow env app_model
  | NORMAL => get_published_workflow env app_model
  end.

Definition wanted_lookup (app_model : App) (invoke_from : InvokeFrom) : Call :=
  match invoke_from with
  | DEBUGGER => GetDraftWorkflow (app_id app_model)
  | NORMAL => GetPublishedWorkflow (app_id app_model)
  end.

Definition other_lookup (app_model : App) (invoke_from : InvokeFrom) : Call :=
  match invoke_from with
  | DEBUGGER => GetPublishedWorkflow (app_id app_model)
  | NORMAL => GetDraftWorkflow (app_id app_model)
  end.

Definition workflow_missing (invoke_from : InvokeFrom) : PyException :=
  match invoke_from with
  | DEBUGGER => ValueError "Workflow not initialized"
  | NORMAL => ValueError "Workflow not published"
  end.

(** A run of [generate] resolved the workflow of the invocation source:
    it made the lookup of that source and not the other one; it failed
    with the error of that source when the definition is absent and ran
    the strategy of the mode on the definition otherwise. *)
Definition workflow_resolved (app_model : App) (user : User) (args : Args)
    (invoke_from : InvokeFrom) (streaming : bool) (st : State)
    (r : Res Response) (st' : State) : Prop :=
  In (wanted_lookup app_model invoke_from) (since st st')
  /\ ~ In (other_lookup app_model invoke_from) (since st st')
  /\ match wanted_workflow app_model invoke_from with
     | None =>
         r = Raise (workflow_missing invoke_from)
         /\ forallb (fun c => negb (is_invoke c)) (since st st') = true
     | Some workflow =>
         In (Invoke (Generate (workflow_generator (mode app_model)) app_model
                       (Some workflow) user args invoke_from streaming))
            (since st st')
     end.

(** "For the modes advanced-chat and workflow, [generate] resolves the
    workflow of the invocation source", for every admitted request. *)
Definition workflow_modes_resolve : Prop :=
  forall app_model user args invoke_from streaming st r st',
    mode app_model = AppMode.ADVANCED_CHAT \/ mode app_model = AppMode.WORKFLOW ->
    admitted app_model st = true ->
    generate app_model user args invoke_from streaming st = (r, st') ->
    workflow_resolved app_model user args invoke_from streaming st r st'.

(** A run of [generate] rejected the mode: it raised the mode error, which
    carries the mode, and invoked no strategy. *)
Definition mode_rejected (app_model : App) (st : State) (r : Res Response)
    (st' : State) : Prop :=
  r = Raise (ValueError ("Invalid app mode " +:+ mode app_model))
  /\ forallb (fun c => negb (is_invoke c)) (since st st') = true.

(** "Every mode outside the supported set is rejected", for every admitted
    request. *)
Definition unknown_modes_rejected : Prop :=
  forall app_model user args invoke_from streaming st r st',
    ~ In (mode app_model) AppMode.supported ->
    admitted app_model st = true ->
    generate app_model user args invoke_from streaming st = (r, st') ->
    mode_rejected app_model st r st'.

(** "On every call without streaming the release is invoked after the
    wrapped call completes, on every outcome": the last call of the run is
    [exit] on the request token. *)
Definition non_streaming_exit_on_every_outcome : Prop :=
  forall app_model user args invoke_from st r st',
    generate app_model user args invoke_from false st = (r, st') ->
    exists before,
      since st st' = before ++ [Exit (app_id app_model) (uuid4 env (drawn st))].


(** "A throttling error of the strategy is translated and the ticket is
    released before the error propagates", for every admitted request. *)
Definition throttling_releases_ticket : Prop :=
  forall app_model user args invoke_from streaming st r st' c message,
    admitted app_model st = true ->
    generate app_model user args invoke_from streaming st = (r, st') ->
    In (Invoke c) (since st st') ->
    run env c = Raise (RateLimitError message) ->
    r = Raise (InvokeRateLimitError message)
    /\ In (Exit (app_id app_model) (uuid4 env (drawn st))) (since st st').

End Service.

Arguments Env : clear implicits.
Arguments State : clear implicits.

(** ** Concrete scenarios *)

Module Scenario.

(** An environment with a daily ceiling of 3 requests, a global ceiling of
    5 concurrent requests, one subscription plan for every tenant, fixed
    workflow definitions and one outcome for every strategy. *)
Definition world (billing : bool) (plan : string) (published draft : option string)
    (outcome : Res (@GenerationOutput string)) : Env string string string string :=
  {| BILLING_ENABLED := billing;
     APP_DAILY_RATE_LIMIT := 3;
     APP_MAX_ACTIVE_REQUESTS := 5;
     subscription_plan := fun _ => plan;
     get_draft_workflow := fun _ => draft;
     get_published_workflow := fun _ => published;
     run := fun _ => outcome;
     convert_to_event_stream := fun _ out => out;
     uuid4 := fun n => "request-" +:+ format_int (Z.of_nat n) |}.

Definition app (m : string) (agent : bool) : App :=
  {| app_id := "app-1"; tenant_id := "tenant-1"; mode := m; is_agent := agent;
     max_active_requests := Some 2 |}.

(** No counter, no ticket, no key drawn, no call made. *)
Definition idle : State string string string :=
  {| counters := ∅; tickets := ∅; drawn := 0; calls := [] |}.

(** The tenant has used its three requests of the day. *)
Definition exhausted : State string string string :=
  {| counters := {["tenant-1" := 3]}; tickets := ∅; drawn := 0; calls := [] |}.

(** Two requests of the app are in flight. *)
Definition busy : State string string string :=
  {| counters := ∅; tickets := {[("app-1", "a"); ("app-1", "b")]}; drawn := 0;
     calls := [] |}.

(** Worlds: the provider throttles every strategy; every strategy fails
    with an unexpected error; a sandbox tenant with a draft workflow; a
    deployment without billing and without any workflow; a strategy that
    produces two events. *)
Definition throttled := world true "sandbox" None None (Raise (RateLimitError "429")).
Definition debugging :=
  world true "sandbox" None (Some "draft") (Return (Blocking "ok")).
Definition unbilled := world false "team" None None (Return (Blocking "ok")).
Definition eventful := world true "sandbox" None None (Return (Events ["a"; "b"])).

Definition completion_app : App := app "completion" false.
Definition chat_app : App := app "chat" false.
Definition workflow_app : App := app "workflow" false.
Definition agent_workflow_app : App := app "workflow" true.
Definition podcast_app : App := app "podcast" false.
Definition agent_podcast_app : App := app "podcast" true.

(** An app whose own limit was stored as -1. *)
Definition negative_limit_app : App :=
  {| app_id := "app-2"; tenant_id := "tenant-1"; mode := "chat"; is_agent := false;
     max_active_requests := Some (-1) |}.

(** The strategy call of a completion request. *)
Definition completion_call (streaming : bool) : @StrategyCall string string string :=
  Generate CompletionAppGenerator completion_app None "user" "args" NORMAL streaming.

(** Runs of [generate]. *)
Definition throttled_stream :=
  generate throttled completion_app "user" "args" NORMAL true idle.
Definition refused_call :=
  generate eventful chat_app "user" "args" NORMAL false busy.
Definition limited_call :=
  generate eventful chat_app "user" "args" NORMAL false exhausted.
Definition unpublished_call :=
  generate unbilled workflow_app "user" "args" NORMAL true idle.
Definition undrafted_call :=
  generate unbilled workflow_app "user" "args" DEBUGGER true idle.
Definition agent_workflow_call :=
  generate unbilled agent_workflow_app "user" "args" NORMAL true idle.
Definition podcast_call :=
  generate unbilled podcast_app "user" "args" NORMAL true idle.
Definition agent_podcast_call :=
  generate unbilled agent_podcast_app "user" "args" NORMAL true idle.

(** More worlds, apps and runs: a draft workflow whose strategy is
    throttled; a completion app that is flagged as an agent. *)
Definition throttled_debugging :=
  world true "sandbox" None (Some "draft") (Raise (RateLimitError "429")).
Definition agent_completion_app : App := app "completion" true.

(** A world whose strategies are interrupted from the keyboard, and a
    streaming completion request in it. *)
Definition interrupted :=
  world true "sandbox" None None (Raise (NonException "KeyboardInterrupt" "")).
Definition interrupted_stream :=
  generate interrupted completion_app "user" "args" NORMAL true idle.

Definition served_stream :=
  generate eventful chat_app "user" "args" NORMAL true idle.
Definition throttled_call :=
  generate throttled completion_app "user" "args" NORMAL false idle.
Definition agent_completion_call :=
  generate unbilled agent_completion_app "user" "args" NORMAL true idle.
Definition undrafted_iteration :=
  generate_single_iteration unbilled workflow_app "user" "node" "args" true idle.
Definition throttled_iteration :=
  generate_single_iteration throttled_debugging workflow_app "user" "node" "args" true idle.
Definition throttled_loop :=
  generate_single_loop throttled_debugging workflow_app "user" "node" "args" true idle.

(** A governor of "app-1" and an active set that holds another token. *)
Definition governor : RateLimit.t := RateLimit.Build "app-1" 2.
Definition others : gset (string * string) := {[("app-1", "b")]}.

End Scenario.

(** ** Symbolic execution of the service *)

Section Execution.

Context {User Args Workflow Payload : Type}.
Variable env : Env User Args Workflow Payload.

Implicit Types (st : State User Args Workflow) (l : RateLimit.t)
  (app_model : App) (e : PyException).

Lemma since_app st st' (cs : list Call) :
  calls st' = calls st ++ cs -> since st st' = cs.
Proof.
  intros H. unfold since. rewrite H. apply drop_app_length.
Qed.

Lemma exit_run l request_id st :
  exit l request_id st = (Return tt, released l request_id st).
Proof. reflexivity. Qed.

Lemma on_leave_run streaming l request_id st :
  on_leave streaming l request_id st = (Return tt, left streaming l request_id st).
Proof. destruct streaming; reflexivity. Qed.

Lemma enter_run l request_id st :
  enter l request_id st
  = if RateLimit.has_room l (tickets st)
    then (Return request_id, entered l request_id st)
    else (Raise (ConcurrencyLimitExceeded (RateLimit.client_id l)
                   (RateLimit.max_active_requests l)),
          log (Enter (RateLimit.client_id l) request_id) st).
Proof.
  unfold enter, RateLimit.enter.
  destruct (RateLimit.has_room l (tickets st)); reflexivity.
Qed.

(** The [try] statement of [generate], run from a state [st]. *)
Lemma governed_run streaming l request_id (body : string -> M Response) st :
  try_except_finally request_id (enter l request_id) body (on_exception l)
    (on_leave streaming l) st
  = if RateLimit.has_room l (tickets st)
    then let '(r, st2) := body request_id (entered l request_id st) in
         finish streaming l request_id r st2
    else finish (Payload := Payload) streaming l request_id
           (Raise (ConcurrencyLimitExceeded (RateLimit.client_id l)
                     (RateLimit.max_active_requests l)))
           (log (Enter (RateLimit.client_id l) request_id) st).
Proof.
  unfold try_except_finally. rewrite enter_run.
  destruct (RateLimit.has_room l (tickets st)).
  - destruct (body request_id (entered l request_id st)) as [[a|e] st2];
      unfold finish, on_exception.
    + rewrite on_leave_run. reflexivity.
    + destruct (is_RateLimitError e); [|destruct (is_Exception e)].
      * unfold raise. rewrite on_leave_run. reflexivity.
      * unfold bind, raise. rewrite exit_run, on_leave_run. reflexivity.
      * unfold raise. rewrite on_leave_run. reflexivity.
  - destruct streaming; reflexivity.
Qed.

Lemma gate_passes app_model st :
  tenant_gate_open env app_model st = true ->
  exists st1 g,
    system_level_rate_limit env app_model st = (Return tt, st1)
    /\ tickets st1 = tickets st /\ drawn st1 = drawn st
    /\ calls st1 = calls st ++ g /\ forallb is_gate_call g = true.
Proof.
  unfold tenant_gate_open, system_level_rate_limit, bind, BillingService_get_info,
    is_rate_limited, increment_rate_limit, raise, ret.
  destruct (BILLING_ENABLED env); simpl.
  - destruct (String.eqb _ "sandbox"); simpl.
    + destruct (RateLimiter.is_rate_limited _ _ _); simpl; [discriminate|].
      intros _. eexists _, [_; _; _].
      repeat split; (simpl; rewrite <- ?app_assoc; reflexivity).
    + intros _. eexists _, [_]. repeat split.
  - intros _. exists st, []. rewrite app_nil_r. repeat split.
Qed.

Lemma gate_rejects app_model st :
  tenant_gate_open env app_model st = false ->
  system_level_rate_limit env app_model st
  = (Raise (InvokeRateLimitError (rate_limit_message env)),
     log (IsRateLimited (tenant_id app_model))
       (log (BillingGetInfo (tenant_id app_model)) st)).
Proof.
  unfold tenant_gate_open, system_level_rate_limit, bind, BillingService_get_info,
    is_rate_limited, increment_rate_limit, raise, ret.
  destruct (BILLING_ENABLED env); simpl; [|discriminate].
  destruct (String.eqb _ "sandbox"); simpl; [|discriminate].
  destruct (RateLimiter.is_rate_limited _ _ _); simpl; [|discriminate].
  reflexivity.
Qed.

Lemma get_workflow_run app_model invoke_from st :
  _get_workflow env app_model invoke_from st
  = (match wanted_workflow env app_model invoke_from with
     | Some workflow => Return workflow
     | None => Raise (workflow_missing invoke_from)
     end,
     log (wanted_lookup app_model invoke_from) st).
Proof.
  unfold _get_workflow, wanted_workflow.
  destruct invoke_from; simpl.
  - destruct (get_draft_workflow env app_model); reflexivity.
  - destruct (get_published_workflow env app_model); reflexivity.
Qed.

Lemma serve_run l request_id (c : StrategyCall) st :
  bind (invoke env c)
    (fun out => ret (rate_limit_generate l
                       (convert_to_event_stream env (generator_of c) out) request_id)) st
  = (served env l request_id c, log (Invoke c) st).
Proof.
  unfold bind, invoke, served, ret. destruct (run env c); reflexivity.
Qed.

Lemma dispatch_run app_model user args invoke_from streaming l request_id st r st' :
  dispatch env app_model user args invoke_from streaming l request_id st = (r, st') ->
  counters st' = counters st /\ tickets st' = tickets st /\ drawn st' = drawn st
  /\ exists d, calls st' = calls st ++ d /\ forallb is_dispatch_call d = true
     /\ ((exists d0 c, d = d0 ++ [Invoke c]
            /\ forallb (fun c => negb (is_invoke c)) d0 = true
            /\ r = served env l request_id c)
         \/ (forallb (fun c => negb (is_invoke c)) d = true
             /\ exists m, r = Raise (ValueError m))).
Proof.
  unfold dispatch.
  repeat match goal with
  | |- context [if ?b then _ else _] => destruct b
  end.
  all: try (unfold bind at 1; rewrite get_workflow_run;
            destruct (wanted_workflow env app_model invoke_from)).
  all: try match goal with
       | |- context [bind (invoke env ?c) _ ?s] =>
           let E := fresh in
           pose proof (serve_run l request_id c s) as E;
           cbn [generator_of] in E; rewrite E; clear E
       end.
  all: intros [= <- <-]; repeat split.
  all: destruct invoke_from; simpl.
  all: first
    [ solve [ eexists [_]; split;
              [ reflexivity
              | split; [reflexivity | left; eexists [], _; repeat split] ] ]
    | solve [ eexists [_; _]; split;
              [ simpl; rewrite <- app_assoc; reflexivity
              | split; [reflexivity | left; eexists [_], _; repeat split] ] ]
    | solve [ eexists [_]; split;
              [ reflexivity
              | split; [reflexivity
                       | right; split; [reflexivity | eexists; reflexivity] ] ] ]
    | solve [ exists []; split;
              [ rewrite app_nil_r; reflexivity
              | split; [reflexivity
                       | right; split; [reflexivity | eexists; reflexivity] ] ] ] ].
Qed.

Lemma gate_run app_model st :
  system_level_rate_limit env app_model st
  = let tenant := tenant_id app_model in
    if BILLING_ENABLED env then
      if String.eqb (subscription_plan env tenant) "sandbox" then
        if RateLimiter.is_rate_limited (system_rate_limiter env) tenant (counters st)
        then (Raise (InvokeRateLimitError (rate_limit_message env)),
              log (IsRateLimited tenant) (log (BillingGetInfo tenant) st))
        else (Return tt,
              log (IncrementRateLimit tenant)
                (set_counters
                   (RateLimiter.increment_rate_limit (system_rate_limiter env) tenant
                      (counters st))
                   (log (IsRateLimited tenant) (log (BillingGetInfo tenant) st))))
      else (Return tt, log (BillingGetInfo tenant) st)
    else (Return tt, st).
Proof.
  unfold system_level_rate_limit, bind, BillingService_get_info, is_rate_limited,
    increment_rate_limit, raise, ret.
  simpl.
  destruct (BILLING_ENABLED env); [|reflexivity].
  destruct (String.eqb _ "sandbox"); [|reflexivity].
  destruct (RateLimiter.is_rate_limited _ _ _); reflexivity.
Qed.

Lemma finish_run streaming l request_id (r : Res (@Response Payload)) st :
  exists st',
    finish streaming l request_id r st = (translated r, st')
    /\ calls st' = calls st
                   ++ repeat (Exit (RateLimit.client_id l) request_id)
                        (releases streaming r)
    /\ counters st' = counters st /\ drawn st' = drawn st
    /\ tickets st' = match releases streaming r with
                     | O => tickets st
                     | S _ => tickets st ∖ {[RateLimit.ticket l request_id]}
                     end.
Proof.
  unfold finish, translated, releases, left.
  destruct r as [a|e]; [|destruct (is_RateLimitError e); [|destruct (is_Exception e)]];
    destruct streaming; simpl;
    eexists; (split; [reflexivity|]); simpl;
    rewrite <- ?app_assoc, ?app_nil_r; repeat split.
  apply set_eq; intros x; rewrite !elem_of_difference; tauto.
Qed.

Lemma generate_run app_model user args invoke_from streaming st :
  generate env app_model user args invoke_from streaming st
  = match system_level_rate_limit env app_model st with
    | (Raise e, st1) => (Raise e, st1)
    | (Return _, st1) =>
        let l := rate_limit_of env app_model in
        let request_id := uuid4 env (drawn st1) in
        if RateLimit.has_room l (tickets st1)
        then let '(r, st2) :=
               dispatch env app_model user args invoke_from streaming l request_id
                 (entered l request_id (drew st1)) in
             finish streaming l request_id r st2
        else finish streaming l request_id
               (Raise (ConcurrencyLimitExceeded (RateLimit.client_id l)
                         (RateLimit.max_active_requests l)))
               (log (Enter (RateLimit.client_id l) request_id) (drew st1))
    end.
Proof.
  unfold generate. unfold bind at 1.
  destruct (system_level_rate_limit env app_model st) as [[[]|e] st1]; [|reflexivity].
  unfold bind, gen_request_key. rewrite governed_run. reflexivity.
Qed.

(** A run of [generate] past the tenant gate. *)
Lemma generate_after_gate app_model user args invoke_from streaming st st1 r st' :
  system_level_rate_limit env app_model st = (Return tt, st1) ->
  generate env app_model user args invoke_from streaming st = (r, st') ->
  let l := rate_limit_of env app_model in
  let request_id := uuid4 env (drawn st1) in
  exists r0 d,
    r = translated r0
    /\ calls st' = calls st1 ++ Enter (app_id app_model) request_id :: d
                   ++ repeat (Exit (app_id app_model) request_id) (releases streaming r0)
    /\ counters st' = counters st1
    /\ forallb is_dispatch_call d = true
    /\ if RateLimit.has_room l (tickets st1)
       then (exists st2,
               dispatch env app_model user args invoke_from streaming l request_id
                 (entered l request_id (drew st1)) = (r0, st2)
               /\ calls st2 = calls (entered l request_id (drew st1)) ++ d)
            /\ tickets st' = match releases streaming r0 with
                             | O => {[RateLimit.ticket l request_id]} ∪ tickets st1
                             | S _ => ({[RateLimit.ticket l request_id]} ∪ tickets st1)
                                      ∖ {[RateLimit.ticket l request_id]}
                             end
            /\ ((exists d0 c, d = d0 ++ [Invoke c]
                   /\ forallb (fun c => negb (is_invoke c)) d0 = true
                   /\ r0 = served env l request_id c)
                \/ (forallb (fun c => negb (is_invoke c)) d = true
                    /\ exists m, r0 = Raise (ValueError m)))
       else d = []
            /\ r0 = Raise (ConcurrencyLimitExceeded (app_id app_model)
                             (_get_max_active_requests env app_model))
            /\ tickets st' = tickets st1 ∖ {[RateLimit.ticket l request_id]}.
Proof.
  intros Hgate Hrun l request_id. rewrite generate_run, Hgate in Hrun. cbv zeta in Hrun.
  fold l request_id in Hrun.
  destruct (RateLimit.has_room l (tickets st1)).
  - destruct (dispatch _ _ _ _ _ _ _ _ _) as [r0 st2] eqn:Hd.
    destruct (dispatch_run _ _ _ _ _ _ _ _ _ _ Hd) as (Hc & Ht & _ & d & Hcalls & Hdc & Hout).
    destruct (finish_run streaming l request_id r0 st2) as (st3 & Hf & Hfc & Hfk & _ & Hft).
    rewrite Hf in Hrun. injection Hrun as <- <-.
    exists r0, d. split; [reflexivity|].
    split. { rewrite Hfc, Hcalls. simpl. rewrite <- !app_assoc. reflexivity. }
    split. { rewrite Hfk, Hc. reflexivity. }
    split; [exact Hdc|].
    split; [eauto|]. split; [|exact Hout].
    rewrite Hft, Ht. reflexivity.
  - destruct (finish_run streaming l request_id
                (Raise (ConcurrencyLimitExceeded (RateLimit.client_id l)
                          (RateLimit.max_active_requests l)))
                (log (Enter (RateLimit.client_id l) request_id) (drew st1)))
      as (st3 & Hf & Hfc & Hfk & _ & Hft).
    rewrite Hf in Hrun. injection Hrun as <- <-.
    exists (Raise (ConcurrencyLimitExceeded (RateLimit.client_id l)
                     (RateLimit.max_active_requests l))), [].
    split; [reflexivity|].
    split. { rewrite Hfc. simpl. rewrite <- !app_assoc. reflexivity. }
    split. { rewrite Hfk. reflexivity. }
    split; [reflexivity|]. cbv beta iota.
    split; [reflexivity|]. split; [reflexivity|].
    rewrite Hft. simpl. destruct streaming; reflexivity.
Qed.
End Execution.

(** ** The effective ceiling *)

Section Limits.

Context {User Args Workflow Payload : Type}.
Variable env : Env User Args Workflow Payload.

(** The filter of [_get_max_active_requests] keeps the positive limits:
    the result is never negative, whatever the two limits are. *)
Lemma max_active_requests_nonneg (app : App) :
  0 <= _get_max_active_requests env app.
Proof.
  unfold _get_max_active_requests. simpl.
  destruct (Z.ltb_spec 0 (default 0 (max_active_requests app)));
    destruct (Z.ltb_spec 0 (APP_MAX_ACTIVE_REQUESTS env)); simpl; lia.
Qed.

(** Whatever the two limits are, the ceiling is the minimum of the
    positive ones, and 0 when none is positive. *)
Lemma max_active_requests_cases (app : App) :
  _get_max_active_requests env app
  = let app_limit := default 0 (max_active_requests app) in
    let config_limit := APP_MAX_ACTIVE_REQUESTS env in
    if 0 <? app_limit
    then if 0 <? config_limit then Z.min app_limit config_limit else app_limit
    else if 0 <? config_limit then config_limit else 0.
Proof.
  unfold _get_max_active_requests. simpl.
  destruct (Z.ltb_spec 0 (default 0 (max_active_requests app)));
    destruct (Z.ltb_spec 0 (APP_MAX_ACTIVE_REQUESTS env)); simpl; lia.
Qed.

(** C2 (as amended).  For every app, [_get_max_active_requests] is the
    ceiling of the specification (the minimum of the non-zero values among
    the own limit of the app and the global limit, 0 when both are zero)
    once a limit that is not positive is read as 0: the minimum of the
    positive limits, and 0 (unlimited) when none is positive.  The own
    limit reads as 0 when it is not set. *)
Theorem max_active_requests_min_of_positive (app : App) :
  _get_max_active_requests env app
  = effective_ceiling (Z.max 0 (default 0 (max_active_requests app)))
      (Z.max 0 (APP_MAX_ACTIVE_REQUESTS env)).
Proof.
  rewrite max_active_requests_cases. cbv zeta.
  unfold effective_ceiling. simpl.
  destruct (Z.ltb_spec 0 (default 0 (max_active_requests app)));
    destruct (Z.ltb_spec 0 (APP_MAX_ACTIVE_REQUESTS env));
    destruct (Z.eqb_spec (Z.max 0 (default 0 (max_active_requests app))) 0);
    destruct (Z.eqb_spec (Z.max 0 (APP_MAX_ACTIVE_REQUESTS env)) 0); simpl; lia.
Qed.

(** On limits that are not negative the ceiling is the one of the
    specification as it stands. *)
Lemma max_active_requests_effective_ceiling (app : App) :
  0 <= default 0 (max_active_requests app) ->
  0 <= APP_MAX_ACTIVE_REQUESTS env ->
  _get_max_active_requests env app
  = effective_ceiling (default 0 (max_active_requests app))
      (APP_MAX_ACTIVE_REQUESTS env).
Proof.
  intros Ha Hc. unfold _get_max_active_requests, effective_ceiling. simpl.
  destruct (Z.ltb_spec 0 (default 0 (max_active_requests app)));
    destruct (Z.ltb_spec 0 (APP_MAX_ACTIVE_REQUESTS env));
    destruct (Z.eqb_spec (default 0 (max_active_requests app)) 0);
    destruct (Z.eqb_spec (APP_MAX_ACTIVE_REQUESTS env) 0); simpl; lia.
Qed.

End Limits.

(** The ceiling in the words of the specification, case by case. *)
Lemma effective_ceiling_cases (a c : Z) :
  effective_ceiling a c
  = if a =? 0 then c else if c =? 0 then a else Z.min a c.
Proof.
  unfold effective_ceiling. simpl.
  destruct (Z.eqb_spec a 0); destruct (Z.eqb_spec c 0); simpl; lia.
Qed.

(** ** The governor *)

(** C9.  [exit] returns without an error on every token and every active
    set; a second [exit] on the same token changes nothing; [exit] on a
    token that is not active changes nothing; every other ticket is active
    afterwards exactly when it was before. *)
Theorem exit_idempotent (l : RateLimit.t) (request_id : string)
    (tickets : gset (string * string)) (other : string * string) :
  other ≠ RateLimit.ticket l request_id ->
  fst (RateLimit.exit l request_id tickets) = Return tt
  /\ fst (RateLimit.exit l request_id (snd (RateLimit.exit l request_id tickets)))
     = Return tt
  /\ snd (RateLimit.exit l request_id (snd (RateLimit.exit l request_id tickets)))
     = snd (RateLimit.exit l request_id tickets)
  /\ (RateLimit.ticket l request_id ∉ tickets ->
      snd (RateLimit.exit l request_id tickets) = tickets)
  /\ (other ∈ snd (RateLimit.exit l request_id tickets) <-> other ∈ tickets).
Proof.
  intros Hne. unfold RateLimit.exit. simpl.
  split; [reflexivity|]. split; [reflexivity|].
  split. { apply set_eq. intros x. rewrite !elem_of_difference. tauto. }
  split.
  - intros Habsent. apply set_eq. intros x.
    rewrite elem_of_difference, elem_of_singleton.
    split; [tauto|]. intros Hx. split; [exact Hx|]. congruence.
  - rewrite elem_of_difference, elem_of_singleton. tauto.
Qed.

(** ** Entry points outside the admission rules *)

Section Bypass.

Context {User Args Workflow Payload : Type}.
Variable env : Env User Args Workflow Payload.

Implicit Types (st : State User Args Workflow) (app_model : App).

(** The debug entry points only look the draft workflow up and run the
    strategy. *)
Lemma single_step_run (method : AppGenerator -> App -> Workflow -> string -> User ->
                                Args -> bool -> StrategyCall)
    app_model (user : User) node_id (args : Args) streaming st r st' :
  (if String.eqb (mode app_model) AppMode.ADVANCED_CHAT then
     bind (_get_workflow env app_model DEBUGGER) (fun workflow =>
     bind (invoke env (method AdvancedChatAppGenerator app_model workflow node_id user
                         args streaming)) (fun out =>
     ret (convert_to_event_stream env AdvancedChatAppGenerator out)))
   else if String.eqb (mode app_model) AppMode.WORKFLOW then
     bind (_get_workflow env app_model DEBUGGER) (fun workflow =>
     bind (invoke env (method WorkflowAppGenerator app_model workflow node_id user
                         args streaming)) (fun out =>
     ret (convert_to_event_stream env AdvancedChatAppGenerator out)))
   else raise (ValueError ("Invalid app mode " +:+ mode app_model))) st = (r, st') ->
  counters st' = counters st /\ tickets st' = tickets st /\ drawn st' = drawn st
  /\ exists d, calls st' = calls st ++ d /\ forallb is_dispatch_call d = true.
Proof.
  repeat match goal with
  | |- context [if ?b then _ else _] => destruct b
  end.
  all: try (unfold bind at 1; rewrite get_workflow_run; simpl;
            destruct (get_draft_workflow env app_model)).
  all: unfold bind, invoke, ret, raise;
    try match goal with |- context [run env ?c] => destruct (run env c) end.
  all: intros [= <- <-]; repeat split; simpl.
  all: first
    [ solve [ eexists [_; _]; split;
              [rewrite <- app_assoc; reflexivity | reflexivity] ]
    | solve [ eexists [_]; split; reflexivity ]
    | solve [ exists []; split; [rewrite app_nil_r; reflexivity | reflexivity] ] ].
Qed.

Lemma dispatch_calls_not_limiter (d : list (@Call User Args Workflow)) :
  forallb is_dispatch_call d = true ->
  forallb (fun c => negb (is_gate_call c || is_ticket_call c)) d = true.
Proof.
  rewrite !forallb_forall. intros H c Hc. specialize (H c Hc).
  destruct c; simpl in *; congruence.
Qed.

(** C3 (as amended).  [generate_single_iteration] and
    [generate_single_loop] run outside the admission rules of [generate]:
    on every invocation the tenant counters and the active tickets are
    left as they were, and no call is made on the billing service, on the
    tenant rate limiter or on the concurrency governor; the calls made are
    the lookup of the draft workflow and the strategy. *)
Theorem single_step_bypasses_admission app_model (user : User) node_id (args : Args)
    streaming st :
  let st1 := snd (generate_single_iteration env app_model user node_id args streaming st) in
  let st2 := snd (generate_single_loop env app_model user node_id args streaming st) in
  (counters st1 = counters st /\ tickets st1 = tickets st
   /\ forallb (fun c => negb (is_gate_call c || is_ticket_call c)) (since st st1) = true
   /\ forallb is_dispatch_call (since st st1) = true)
  /\ (counters st2 = counters st /\ tickets st2 = tickets st
      /\ forallb (fun c => negb (is_gate_call c || is_ticket_call c)) (since st st2) = true
      /\ forallb is_dispatch_call (since st st2) = true).
Proof.
  intros st1 st2. split.
  - destruct (generate_single_iteration env app_model user node_id args streaming st)
      as [r s] eqn:E. subst st1. simpl.
    apply (single_step_run SingleIterationGenerate) in E as (Hc & Ht & _ & d & Hd & Hok).
    rewrite (since_app _ _ _ Hd). auto using dispatch_calls_not_limiter.
  - destruct (generate_single_loop env app_model user node_id args streaming st)
      as [r s] eqn:E. subst st2. simpl.
    apply (single_step_run SingleLoopGenerate) in E as (Hc & Ht & _ & d & Hd & Hok).
    rewrite (since_app _ _ _ Hd). auto using dispatch_calls_not_limiter.
Qed.

(** C10.  On every call, whatever the billing state and the plan of the
    tenant, [generate_more_like_this] makes one call, the completion
    strategy, and hands its outcome back: no call reaches the tenant rate
    limiter or the concurrency governor, and the tenant counters and the
    active tickets are left as they were. *)
Theorem more_like_this_bypasses_limiters app_model (user : User) message_id
    invoke_from streaming st :
  let c := GenerateMoreLikeThis app_model message_id user invoke_from streaming in
  let '(r, st') := generate_more_like_this env app_model user message_id invoke_from
                     streaming st in
  r = run env c
  /\ since st st' = [Invoke c]
  /\ counters st' = counters st
  /\ tickets st' = tickets st
  /\ drawn st' = drawn st.
Proof.
  unfold generate_more_like_this, invoke. simpl.
  split; [reflexivity|]. split; [|auto].
  apply since_app. reflexivity.
Qed.

End Bypass.

(** ** The tenant gate *)

Section Admission.

Context {User Args Workflow Payload : Type}.
Variable env : Env User Args Workflow Payload.

Implicit Types (st : State User Args Workflow) (app_model : App).

Lemma dispatch_calls_not_tenant (d : list (@Call User Args Workflow)) :
  forallb is_dispatch_call d = true ->
  forallb (fun c => negb (is_tenant_limiter_call c)) d = true.
Proof.
  rewrite !forallb_forall. intros H c Hc. specialize (H c Hc).
  destruct c; simpl in *; congruence.
Qed.

Lemma exits_not_tenant client request_id n :
  forallb (fun c : @Call User Args Workflow => negb (is_tenant_limiter_call c))
    (repeat (Exit client request_id) n) = true.
Proof. induction n; simpl; auto. Qed.

(** The calls of a run past the tenant gate, after the gate: the [enter],
    the dispatch and the [exit]s; none is a call on the tenant limiter. *)
Lemma after_gate_not_tenant app_model (user : User) (args : Args) invoke_from
    streaming st st1 r st' :
  system_level_rate_limit env app_model st = (Return tt, st1) ->
  generate env app_model user args invoke_from streaming st = (r, st') ->
  counters st' = counters st1
  /\ exists rest,
       calls st' = calls st1 ++ Enter (app_id app_model) (uuid4 env (drawn st1)) :: rest
       /\ forallb (fun c => negb (is_tenant_limiter_call c)) rest = true.
Proof.
  intros Hgate Hrun.
  destruct (generate_after_gate _ _ _ _ _ _ _ _ _ _ Hgate Hrun)
    as (r0 & d & _ & Hcalls & Hcount & Hd & _).
  split; [exact Hcount|]. eexists. split; [exact Hcalls|].
  rewrite forallb_app, (dispatch_calls_not_tenant _ Hd), exits_not_tenant. reflexivity.
Qed.

(** C4.  [generate] calls the tenant rate limiter only when billing is
    enabled and the plan of the tenant is the sandbox plan.  In that case,
    when the tenant is rate limited the call fails with the rate limit
    error after the check alone: nothing is incremented, no ticket is
    entered and no strategy is invoked; when it is not, the counter of the
    tenant is incremented once, before the ticket is entered. *)
Theorem tenant_rate_gate app_model (user : User) (args : Args) invoke_from streaming st :
  let tenant := tenant_id app_model in
  let '(r, st') := generate env app_model user args invoke_from streaming st in
  if BILLING_ENABLED env && String.eqb (subscription_plan env tenant) "sandbox"
  then
    if RateLimiter.is_rate_limited (system_rate_limiter env) tenant (counters st)
    then r = Raise (InvokeRateLimitError (rate_limit_message env))
         /\ since st st' = [BillingGetInfo tenant; IsRateLimited tenant]
         /\ counters st' = counters st
         /\ tickets st' = tickets st
    else exists rest,
           since st st'
           = [BillingGetInfo tenant; IsRateLimited tenant; IncrementRateLimit tenant;
              Enter (app_id app_model) (uuid4 env (drawn st))] ++ rest
           /\ forallb (fun c => negb (is_tenant_limiter_call c)) rest = true
           /\ RateLimiter.attempts (counters st') tenant
              = RateLimiter.attempts (counters st) tenant + 1
  else forallb (fun c => negb (is_tenant_limiter_call c)) (since st st') = true
       /\ counters st' = counters st.
Proof.
  intros tenant.
  destruct (generate env app_model user args invoke_from streaming st) as [r st'] eqn:Hrun.
  pose proof (gate_run env app_model st) as Hgate. cbv zeta in Hgate. fold tenant in Hgate.
  destruct (BILLING_ENABLED env); simpl.
  - destruct (String.eqb (subscription_plan env tenant) "sandbox").
    + destruct (RateLimiter.is_rate_limited _ tenant (counters st)).
      * rewrite generate_run, Hgate in Hrun. injection Hrun as <- <-.
        repeat split. apply since_app. simpl. rewrite <- app_assoc. reflexivity.
      * destruct (after_gate_not_tenant _ _ _ _ _ _ _ _ _ Hgate Hrun)
          as (Hcount & rest & Hcalls & Hrest).
        exists rest. simpl in Hcalls, Hcount. split; [|split; [exact Hrest|]].
        -- apply since_app. rewrite Hcalls, <- !app_assoc. reflexivity.
        -- rewrite Hcount. unfold RateLimiter.increment_rate_limit, RateLimiter.attempts.
           rewrite lookup_insert_eq. reflexivity.
    + destruct (after_gate_not_tenant _ _ _ _ _ _ _ _ _ Hgate Hrun)
        as (Hcount & rest & Hcalls & Hrest).
      simpl in Hcalls, Hcount. split; [|exact Hcount].
      rewrite (since_app st st' (BillingGetInfo tenant :: Enter (app_id app_model)
                                   (uuid4 env (drawn st)) :: rest)).
      * simpl. exact Hrest.
      * rewrite Hcalls, <- app_assoc. reflexivity.
  - destruct (after_gate_not_tenant _ _ _ _ _ _ _ _ _ Hgate Hrun)
      as (Hcount & rest & Hcalls & Hrest).
    split; [|exact Hcount].
    rewrite (since_app st st' _ Hcalls). simpl. exact Hrest.
Qed.

End Admission.

(** ** Release of the ticket *)

Section Release.

Context {User Args Workflow Payload : Type}.
Variable env : Env User Args Workflow Payload.

Implicit Types (st : State User Args Workflow) (app_model : App).

Lemma ticket_released (k : string * string) (ts : gset (string * string)) :
  k ∉ ts ∖ {[k]}.
Proof. rewrite elem_of_difference, elem_of_singleton. intros [_ H]. apply H. reflexivity. Qed.

Lemma ticket_held (k : string * string) (ts : gset (string * string)) :
  k ∈ {[k]} ∪ ts.
Proof. apply elem_of_union_l, elem_of_singleton. reflexivity. Qed.

Lemma gate_calls_not_invoke (g : list (@Call User Args Workflow)) c :
  forallb is_gate_call g = true -> ~ In (Invoke c) g.
Proof.
  rewrite forallb_forall. intros H Hc. specialize (H _ Hc). discriminate H.
Qed.

Lemma exits_not_invoke client request_id n (c : @StrategyCall User Args Workflow) :
  ~ In (Invoke c) (repeat (Exit client request_id) n).
Proof. intros H. apply repeat_spec in H. discriminate H. Qed.

Lemma not_invoke_not_in (d : list (@Call User Args Workflow)) c :
  forallb (fun c => negb (is_invoke c)) d = true -> ~ In (Invoke c) d.
Proof.
  rewrite forallb_forall. intros H Hc. specialize (H _ Hc). discriminate H.
Qed.

Lemma not_invoke_not_exit (d : list (@Call User Args Workflow)) :
  forallb is_dispatch_call d = true ->
  forallb (fun c => negb (is_exit_call c)) d = true.
Proof.
  rewrite !forallb_forall. intros H c Hc. specialize (H c Hc).
  destruct c; simpl in *; congruence.
Qed.

Lemma gate_calls_not_exit (g : list (@Call User Args Workflow)) :
  forallb is_gate_call g = true ->
  forallb (fun c => negb (is_exit_call c)) g = true.
Proof.
  rewrite !forallb_forall. intros H c Hc. specialize (H c Hc).
  destruct c; simpl in *; congruence.
Qed.

(** A run of [generate] that is rejected by the tenant gate. *)
Lemma generate_gate_closed app_model (user : User) (args : Args) invoke_from streaming
    st r st' :
  tenant_gate_open env app_model st = false ->
  generate env app_model user args invoke_from streaming st = (r, st') ->
  r = Raise (InvokeRateLimitError (rate_limit_message env))
  /\ since st st' = [BillingGetInfo (tenant_id app_model);
                     IsRateLimited (tenant_id app_model)].
Proof.
  intros Hclosed Hrun. rewrite generate_run, (gate_rejects _ _ _ Hclosed) in Hrun.
  injection Hrun as <- <-. split; [reflexivity|].
  apply since_app. simpl. rewrite <- app_assoc. reflexivity.
Qed.

(** A run of [generate] in which a strategy was invoked: the request was
    admitted, the strategy call is the last call before the [exit]s, and
    the outcome and the tickets are those [finish] makes of the outcome of
    the strategy. *)
Lemma generate_invoked app_model (user : User) (args : Args) invoke_from streaming
    st r st' c :
  generate env app_model user args invoke_from streaming st = (r, st') ->
  In (Invoke c) (since st st') ->
  let l := rate_limit_of env app_model in
  let request_id := uuid4 env (drawn st) in
  admitted env app_model st = true
  /\ r = translated (served env l request_id c)
  /\ (exists before,
        since st st'
        = before ++ Invoke c
            :: repeat (Exit (app_id app_model) request_id)
                 (releases streaming (served env l request_id c))
        /\ forallb (fun c => negb (is_exit_call c)) before = true
        /\ In (Enter (app_id app_model) request_id) before)
  /\ tickets st'
     = match releases streaming (served env l request_id c) with
       | O => {[RateLimit.ticket l request_id]} ∪ tickets st
       | S _ => ({[RateLimit.ticket l request_id]} ∪ tickets st)
                ∖ {[RateLimit.ticket l request_id]}
       end.
Proof.
  intros Hrun Hin l request_id.
  destruct (tenant_gate_open env app_model st) eqn:Hopen.
  2: { destruct (generate_gate_closed _ _ _ _ _ _ _ _ Hopen Hrun) as [_ Hs].
       rewrite Hs in Hin. simpl in Hin. destruct Hin as [H|[H|[]]]; discriminate H. }
  destruct (gate_passes _ _ _ Hopen) as (st1 & g & Hgate & Ht1 & Hd1 & Hc1 & Hg).
  destruct (generate_after_gate _ _ _ _ _ _ _ _ _ _ Hgate Hrun)
    as (r0 & d & Hr & Hcalls & _ & Hd & Hroom).
  rewrite Hd1, Ht1 in *. fold l request_id in Hcalls, Hroom.
  assert (Hs : since st st'
               = g ++ Enter (app_id app_model) request_id :: d
                   ++ repeat (Exit (app_id app_model) request_id)
                        (releases streaming r0)).
  { apply since_app. rewrite Hcalls, Hc1, <- app_assoc. reflexivity. }
  rewrite Hs in Hin. apply in_app_or in Hin as [Hin|Hin].
  { exfalso. exact (gate_calls_not_invoke _ _ Hg Hin). }
  destruct Hin as [Hin|Hin]; [discriminate Hin|].
  apply in_app_or in Hin as [Hin|Hin].
  2: { exfalso. exact (exits_not_invoke _ _ _ _ Hin). }
  unfold admitted. rewrite Hopen. simpl. fold l.
  destruct (RateLimit.has_room l (tickets st)).
  2: { destruct Hroom as [-> _]. destruct Hin. }
  destruct Hroom as (_ & Htickets & [(d0 & c' & -> & Hd0 & ->)|[Hnone _]]).
  2: { exfalso. exact (not_invoke_not_in _ _ Hnone Hin). }
  apply in_app_or in Hin as [Hin|Hin].
  { exfalso. exact (not_invoke_not_in _ _ Hd0 Hin). }
  destruct Hin as [[= <-]|[]].
  split; [reflexivity|]. split; [exact Hr|]. split; [|exact Htickets].
  exists (g ++ Enter (app_id app_model) request_id :: d0).
  split. { rewrite Hs, <- !app_assoc. reflexivity. }
  split.
  - rewrite forallb_app in Hd. apply andb_prop in Hd as [Hd _].
    rewrite forallb_app. simpl.
    rewrite (gate_calls_not_exit _ Hg), (not_invoke_not_exit _ Hd). reflexivity.
  - apply in_or_app. right. left. reflexivity.
Qed.


(** X14.  When a strategy invoked by [generate] raises an error that is not
    an instance of [Exception], no handler runs: the error reaches the
    caller as it is, the only [exit] of the run is the one of the final
    block of a call without [streaming], and with [streaming] the ticket of
    the request is still active when the call ends. *)
Theorem uncaught_error_skips_handler app_model (user : User) (args : Args) invoke_from
    streaming st r st' c e :
  generate env app_model user args invoke_from streaming st = (r, st') ->
  In (Invoke c) (since st st') ->
  run env c = Raise e ->
  is_Exception e = false ->
  let request_id := uuid4 env (drawn st) in
  r = Raise e
  /\ (exists before,
        since st st'
        = before ++ Invoke c
            :: (if streaming then [] else [Exit (app_id app_model) request_id])
        /\ forallb (fun c => negb (is_exit_call c)) before = true)
  /\ (RateLimit.ticket (rate_limit_of env app_model) request_id ∈ tickets st'
      <-> streaming = true).
Proof.
  intros Hrun Hin Hraise Huncaught request_id.
  destruct (generate_invoked _ _ _ _ _ _ _ _ _ Hrun Hin)
    as (_ & Hr & (before & Hs & Hbefore & _) & Htickets).
  fold request_id in Hr, Hs, Htickets.
  assert (Hserved : served env (rate_limit_of env app_model) request_id c = Raise e).
  { unfold served. rewrite Hraise. reflexivity. }
  assert (Hother : is_RateLimitError e = false) by (destruct e; discriminate || reflexivity).
  rewrite Hserved in *. unfold translated in Hr. unfold releases in Hs, Htickets.
  rewrite Hother in *. rewrite Huncaught in *.
  split; [exact Hr|]. split.
  - exists before. split; [|exact Hbefore]. rewrite Hs. destruct streaming; reflexivity.
  - rewrite Htickets. destruct streaming; simpl.
    + split; [reflexivity|]. intros _. apply ticket_held.
    + split; [|discriminate]. intros H. exfalso. exact (ticket_released _ _ H).
Qed.

(** X13.  With [streaming] set, a provider throttling error of the strategy
    reaches the caller translated, no [exit] is called and the ticket of
    the request stays active. *)
Lemma throttled_stream_keeps_ticket app_model (user : User) (args : Args) invoke_from
    st r st' c message :
  generate env app_model user args invoke_from true st = (r, st') ->
  In (Invoke c) (since st st') ->
  run env c = Raise (RateLimitError message) ->
  let request_id := uuid4 env (drawn st) in
  r = Raise (InvokeRateLimitError message)
  /\ forallb (fun c => negb (is_exit_call c)) (since st st') = true
  /\ RateLimit.ticket (rate_limit_of env app_model) request_id ∈ tickets st'.
Proof.
  intros Hrun Hin Hraise request_id.
  destruct (generate_invoked _ _ _ _ _ _ _ _ _ Hrun Hin)
    as (_ & Hr & (before & Hs & Hbefore & _) & Htickets).
  fold request_id in Hr, Hs, Htickets.
  assert (Hserved : served env (rate_limit_of env app_model) request_id c
                    = Raise (RateLimitError message)).
  { unfold served. rewrite Hraise. reflexivity. }
  rewrite Hserved in *. simpl in *.
  split; [exact Hr|]. split.
  - rewrite Hs, forallb_app, Hbefore. reflexivity.
  - rewrite Htickets. apply ticket_held.
Qed.

(** X12.  Without [streaming], a provider throttling error of the strategy
    reaches the caller translated, [exit] on the token of the request is
    the call right after the strategy, and the ticket is not active when
    the call ends. *)
Lemma throttled_call_releases_ticket app_model (user : User) (args : Args) invoke_from
    st r st' c message :
  generate env app_model user args invoke_from false st = (r, st') ->
  In (Invoke c) (since st st') ->
  run env c = Raise (RateLimitError message) ->
  let request_id := uuid4 env (drawn st) in
  r = Raise (InvokeRateLimitError message)
  /\ (exists before,
        since st st' = before ++ [Invoke c; Exit (app_id app_model) request_id])
  /\ RateLimit.ticket (rate_limit_of env app_model) request_id ∉ tickets st'.
Proof.
  intros Hrun Hin Hraise request_id.
  destruct (generate_invoked _ _ _ _ _ _ _ _ _ Hrun Hin)
    as (_ & Hr & (before & Hs & Hbefore & _) & Htickets).
  fold request_id in Hr, Hs, Htickets.
  assert (Hserved : served env (rate_limit_of env app_model) request_id c
                    = Raise (RateLimitError message)).
  { unfold served. rewrite Hraise. reflexivity. }
  rewrite Hserved in *. simpl in *.
  split; [exact Hr|]. split; [eauto|].
  rewrite Htickets. apply ticket_released.
Qed.

(** C7 (as amended).  On every call of [generate] without [streaming] that
    the tenant gate lets through, whatever the outcome of the [try]
    statement (a returned response, a refusal of [enter], any raised
    exception), the last call made is [exit] on the ticket of the request,
    and the ticket is not active when the call ends.  A call that the
    tenant gate rejects ends before a request token is drawn
    ([generate_gate_closed]). *)
Theorem non_streaming_always_exits app_model (user : User) (args : Args) invoke_from
    st r st' :
  tenant_gate_open env app_model st = true ->
  generate env app_model user args invoke_from false st = (r, st') ->
  let request_id := uuid4 env (drawn st) in
  (exists before,
     since st st' = before ++ [Exit (app_id app_model) request_id]
     /\ In (Enter (app_id app_model) request_id) before)
  /\ RateLimit.ticket (rate_limit_of env app_model) request_id ∉ tickets st'.
Proof.
  intros Hopen Hrun request_id.
  destruct (gate_passes _ _ _ Hopen) as (st1 & g & Hgate & Ht1 & Hd1 & Hc1 & Hg).
  destruct (generate_after_gate _ _ _ _ _ _ _ _ _ _ Hgate Hrun)
    as (r0 & d & Hr & Hcalls & _ & Hd & Hroom).
  rewrite Hd1, Ht1 in *. fold request_id in Hcalls, Hroom.
  assert (Hn : exists n, releases false r0 = S n).
  { unfold releases. rewrite Nat.add_1_r. eexists. reflexivity. }
  destruct Hn as [n Hn]. rewrite Hn in *. split.
  - exists (g ++ Enter (app_id app_model) request_id :: d
              ++ repeat (Exit (app_id app_model) request_id) n).
    split.
    + apply since_app. rewrite Hcalls, Hc1. simpl. rewrite repeat_cons.
      rewrite <- !app_assoc. simpl. rewrite <- !app_assoc. reflexivity.
    + apply in_or_app. right. left. reflexivity.
  - destruct (RateLimit.has_room _ (tickets st)).
    + destruct Hroom as (_ & -> & _). apply ticket_released.
    + destruct Hroom as (_ & _ & ->). apply ticket_released.
Qed.

End Release.

(** ** Dispatch on the mode *)

Section Dispatch.

Context {User Args Workflow Payload : Type}.
Variable env : Env User Args Workflow Payload.

Implicit Types (st : State User Args Workflow) (app_model : App).

Lemma gate_calls_not_dispatch (g : list (@Call User Args Workflow)) c :
  forallb is_gate_call g = true -> is_dispatch_call c = true -> ~ In c g.
Proof.
  rewrite forallb_forall. intros H Hc Hin. specialize (H _ Hin).
  destruct c; discriminate.
Qed.

Lemma exits_not_dispatch client request_id n (c : @Call User Args Workflow) :
  is_dispatch_call c = true -> ~ In c (repeat (Exit client request_id) n).
Proof. intros Hc H. apply repeat_spec in H. subst c. discriminate Hc. Qed.

Lemma gate_calls_no_invoke (g : list (@Call User Args Workflow)) :
  forallb is_gate_call g = true ->
  forallb (fun c => negb (is_invoke c)) g = true.
Proof.
  rewrite !forallb_forall. intros H c Hc. specialize (H c Hc).
  destruct c; simpl in *; congruence.
Qed.

Lemma exits_no_invoke client request_id n :
  forallb (fun c : @Call User Args Workflow => negb (is_invoke c))
    (repeat (Exit client request_id) n) = true.
Proof. induction n; simpl; auto. Qed.

(** On an app that is not flagged as an agent, a mode outside the
    supported set falls through every branch of the dispatch. *)
Lemma dispatch_unknown_mode app_model (user : User) (args : Args) invoke_from streaming
    l request_id st :
  ~ In (mode app_model) AppMode.supported ->
  is_agent app_model = false ->
  dispatch env app_model user args invoke_from streaming l request_id st
  = (Raise (ValueError ("Invalid app mode " +:+ mode app_model)), st).
Proof.
  intros Hmode Hagent. unfold dispatch. rewrite Hagent.
  repeat match goal with
  | |- context [String.eqb (mode app_model) ?m] =>
      destruct (String.eqb_spec (mode app_model) m) as [E|_];
      [exfalso; apply Hmode; rewrite E; simpl; tauto|]
  end.
  reflexivity.
Qed.

(** On an app that is not flagged as an agent, the two workflow modes
    reach the branch that resolves the workflow. *)
Lemma dispatch_workflow_mode app_model (user : User) (args : Args) invoke_from streaming
    l request_id st :
  mode app_model = AppMode.ADVANCED_CHAT \/ mode app_model = AppMode.WORKFLOW ->
  is_agent app_model = false ->
  dispatch env app_model user args invoke_from streaming l request_id st
  = match wanted_workflow env app_model invoke_from with
    | None => (Raise (workflow_missing invoke_from),
               log (wanted_lookup app_model invoke_from) st)
    | Some workflow =>
        let c := Generate (workflow_generator (mode app_model)) app_model
                   (Some workflow) user args invoke_from streaming in
        (served env l request_id c,
         log (Invoke c) (log (wanted_lookup app_model invoke_from) st))
    end.
Proof.
  intros [E|E] Hagent; unfold dispatch, workflow_generator; rewrite E, Hagent; simpl;
    unfold bind at 1; rewrite get_workflow_run;
    destruct (wanted_workflow env app_model invoke_from); try reflexivity;
    unfold bind, invoke, served, ret; simpl;
    match goal with |- context [run env ?c] => destruct (run env c) end; reflexivity.
Qed.

(** C8 (as amended).  For every app that is not flagged as an agent and
    whose mode is outside the supported set, an admitted request fails
    with the mode error, which carries the mode, and no strategy is
    invoked. *)
Theorem unknown_mode_rejected_unless_agent app_model (user : User) (args : Args)
    invoke_from streaming st r st' :
  ~ In (mode app_model) AppMode.supported ->
  is_agent app_model = false ->
  admitted env app_model st = true ->
  generate env app_model user args invoke_from streaming st = (r, st') ->
  mode_rejected app_model st r st'.
Proof.
  intros Hmode Hagent Hadm Hrun.
  apply andb_prop in Hadm as [Hopen Hroom].
  destruct (gate_passes _ _ _ Hopen) as (st1 & g & Hgate & Ht1 & Hd1 & Hc1 & Hg).
  destruct (generate_after_gate _ _ _ _ _ _ _ _ _ _ Hgate Hrun)
    as (r0 & d & Hr & Hcalls & _ & _ & Hcase).
  rewrite Ht1, Hroom in Hcase. destruct Hcase as ((st2 & Hdis & Hd) & _ & _).
  rewrite (dispatch_unknown_mode _ _ _ _ _ _ _ _ Hmode Hagent) in Hdis.
  injection Hdis as <- <-.
  rewrite <- (app_nil_r (calls _)) in Hd at 1. apply app_inv_head in Hd as <-.
  split; [exact Hr|].
  rewrite (since_app st st' (g ++ Enter (app_id app_model) (uuid4 env (drawn st1))
                               :: repeat (Exit (app_id app_model) (uuid4 env (drawn st1)))
                                    (releases streaming
                                       (Raise (ValueError ("Invalid app mode "
                                                           +:+ mode app_model))
                                        : Res (@Response Payload))))).
  - rewrite forallb_app. simpl.
    rewrite (gate_calls_no_invoke _ Hg), exits_no_invoke. reflexivity.
  - rewrite Hcalls, Hc1, <- app_assoc. reflexivity.
Qed.

(** C6 (as amended).  For every app that is not flagged as an agent and
    whose mode is advanced-chat or workflow, an admitted request looks up
    the draft workflow when it comes from the debugger and the published
    workflow otherwise; it fails with "Workflow not initialized",
    respectively "Workflow not published", and invokes no strategy when
    that definition is absent, and runs the generator of the mode on the
    definition when it is there. *)
Theorem workflow_resolved_unless_agent app_model (user : User) (args : Args)
    invoke_from streaming st r st' :
  mode app_model = AppMode.ADVANCED_CHAT \/ mode app_model = AppMode.WORKFLOW ->
  is_agent app_model = false ->
  admitted env app_model st = true ->
  generate env app_model user args invoke_from streaming st = (r, st') ->
  workflow_resolved env app_model user args invoke_from streaming st r st'.
Proof.
  intros Hmode Hagent Hadm Hrun.
  apply andb_prop in Hadm as [Hopen Hroom].
  destruct (gate_passes _ _ _ Hopen) as (st1 & g & Hgate & Ht1 & Hd1 & Hc1 & Hg).
  destruct (generate_after_gate _ _ _ _ _ _ _ _ _ _ Hgate Hrun)
    as (r0 & d & Hr & Hcalls & _ & _ & Hcase).
  rewrite Ht1, Hroom in Hcase. destruct Hcase as ((st2 & Hdis & Hd) & _ & _).
  rewrite (dispatch_workflow_mode _ _ _ _ _ _ _ _ Hmode Hagent) in Hdis.
  assert (Hs : since st st'
               = g ++ Enter (app_id app_model) (uuid4 env (drawn st1)) :: d
                   ++ repeat (Exit (app_id app_model) (uuid4 env (drawn st1)))
                        (releases streaming r0)).
  { apply since_app. rewrite Hcalls, Hc1, <- app_assoc. reflexivity. }
  assert (Hwanted : is_dispatch_call (wanted_lookup (User:=User) (Args:=Args)
                                        (Workflow:=Workflow) app_model invoke_from) = true)
    by (destruct invoke_from; reflexivity).
  assert (Hother : is_dispatch_call (other_lookup (User:=User) (Args:=Args)
                                       (Workflow:=Workflow) app_model invoke_from) = true)
    by (destruct invoke_from; reflexivity).
  unfold workflow_resolved. rewrite Hs.
  destruct (wanted_workflow env app_model invoke_from) as [workflow|].
  - cbv zeta in Hdis. injection Hdis as <- <-.
    simpl in Hd. rewrite <- !app_assoc in Hd. do 2 apply app_inv_head in Hd. subst d.
    split; [|split].
    + apply in_or_app. right. right. left. reflexivity.
    + intros Hin. apply in_app_or in Hin as [Hin|[Hin|[Hin|[Hin|Hin]]]].
      * exact (gate_calls_not_dispatch _ _ Hg Hother Hin).
      * destruct invoke_from; discriminate Hin.
      * destruct invoke_from; discriminate Hin.
      * destruct invoke_from; discriminate Hin.
      * exact (exits_not_dispatch _ _ _ _ Hother Hin).
    + apply in_or_app. right. right. right. left. reflexivity.
  - injection Hdis as <- <-.
    simpl in Hd. rewrite <- !app_assoc in Hd. do 2 apply app_inv_head in Hd. subst d.
    split; [|split; [|split]].
    + apply in_or_app. right. right. left. reflexivity.
    + intros Hin. apply in_app_or in Hin as [Hin|[Hin|[Hin|Hin]]].
      * exact (gate_calls_not_dispatch _ _ Hg Hother Hin).
      * destruct invoke_from; discriminate Hin.
      * destruct invoke_from; discriminate Hin.
      * exact (exits_not_dispatch _ _ _ _ Hother Hin).
    + rewrite Hr. destruct invoke_from; reflexivity.
    + rewrite forallb_app. simpl.
      rewrite (gate_calls_no_invoke _ Hg), exits_no_invoke.
      destruct invoke_from; reflexivity.
Qed.

End Dispatch.

(** ** The properties on concrete runs *)

Section Runs.

Import Scenario.

(** Picks a member of a concrete list. *)
Ltac pick := repeat first [left; reflexivity | right].

(** Rules a call out of a concrete list. *)
Ltac absent H := repeat (destruct H as [H|H]; [discriminate H|]); destruct H.

(** Own limit -1, global limit 5: the ceiling is 5, and -1 is the minimum
    of the two non-zero values. *)
Lemma negative_limit_is_unlimited : ~ ceiling_is_min_of_nonzero unbilled.
Proof.
  intros H. specialize (H negative_limit_app). vm_compute in H. discriminate H.
Qed.

(** Own limit 2, global limit 5: the ceiling is 2. *)
Lemma max_active_requests_effective_ceiling_example :
  _get_max_active_requests unbilled chat_app = Z.min 2 5.
Proof.
  rewrite max_active_requests_effective_ceiling; [reflexivity | simpl; lia | simpl; lia].
Defined.

(** Token "a" was never admitted; token "b" is active. *)
Lemma exit_idempotent_example :
  snd (RateLimit.exit governor "a" (snd (RateLimit.exit governor "a" others)))
  = snd (RateLimit.exit governor "a" others)
  /\ snd (RateLimit.exit governor "a" others) = others
  /\ ("app-1", "b") ∈ snd (RateLimit.exit governor "a" others).
Proof.
  destruct (exit_idempotent governor "a" others ("app-1", "b"))
    as (_ & _ & Htwice & Habsent & Hother).
  - discriminate.
  - split; [exact Htwice|]. split.
    + apply Habsent. unfold others. rewrite elem_of_singleton. discriminate.
    + apply Hother. apply elem_of_singleton. reflexivity.
Defined.

(** C1.  A streaming request on a completion app whose strategy raises
    the provider throttling error: the caller gets the translated error,
    the strategy is the last call made, no [exit] follows it, and the
    ticket "request-0" of the app is still active when the call ends. *)
Theorem throttled_stream_leaves_ticket_active :
  fst throttled_stream = Raise (InvokeRateLimitError "429")
  /\ calls (snd throttled_stream)
     = [BillingGetInfo "tenant-1"; IsRateLimited "tenant-1";
        IncrementRateLimit "tenant-1"; Enter "app-1" "request-0";
        Invoke (completion_call true)]
  /\ elements (tickets (snd throttled_stream)) = [("app-1", "request-0")].
Proof. vm_compute. repeat split. Qed.

(** The release promised for every throttled request fails on the
    streaming request above. *)
Lemma throttling_keeps_stream_ticket : ~ throttling_releases_ticket throttled.
Proof.
  intros H.
  destruct (H completion_app "user" "args" NORMAL true idle
              (fst throttled_stream) (snd throttled_stream) (completion_call true) "429")
    as [_ Hexit].
  - reflexivity.
  - reflexivity.
  - vm_compute. pick.
  - reflexivity.
  - vm_compute in Hexit. absent Hexit.
Qed.

(** A sandbox tenant re-runs one iteration, and one loop, of a workflow
    app: the tenant limiter is not asked. *)
Lemma single_step_outside_admission_rules :
  ~ same_admission_rules debugging (generate_single_iteration debugging)
  /\ ~ same_admission_rules debugging (generate_single_loop debugging).
Proof.
  split; intros H;
    destruct (H workflow_app "user" "node" "args" true idle) as [Hcheck _];
    specialize (Hcheck eq_refl); vm_compute in Hcheck; absent Hcheck.
Qed.



(** A call without streaming of a tenant that has used its daily quota:
    the call ends on the check of the tenant limiter, no [exit] is made. *)
Lemma tenant_rejection_makes_no_exit : ~ non_streaming_exit_on_every_outcome eventful.
Proof.
  intros H.
  destruct (H chat_app "user" "args" NORMAL exhausted (fst limited_call) (snd limited_call))
    as (before & Hs).
  - reflexivity.
  - vm_compute in Hs.
    destruct before as [|c1 [|c2 [|c3 rest]]]; simpl in Hs; discriminate Hs.
Qed.

(** A call without streaming that the governor refuses. *)
Lemma non_streaming_always_exits_example :
  tenant_gate_open eventful chat_app busy = true
  /\ fst refused_call = Raise (ConcurrencyLimitExceeded "app-1" 2)
  /\ exists before,
       since busy (snd refused_call) = before ++ [Exit "app-1" "request-0"].
Proof.
  split; [reflexivity|]. split; [reflexivity|].
  destruct (non_streaming_always_exits eventful chat_app "user" "args" NORMAL busy
              (fst refused_call) (snd refused_call))
    as ((before & Hs & _) & _).
  - reflexivity.
  - reflexivity.
  - exists before. exact Hs.
Defined.

(** An app in mode workflow that is flagged as an agent, with no published
    workflow: the request is served by the agent chat generator. *)
Lemma agent_flag_overrides_workflow_mode : ~ workflow_modes_resolve unbilled.
Proof.
  intros H.
  destruct (H agent_workflow_app "user" "args" NORMAL true idle
              (fst agent_workflow_call) (snd agent_workflow_call))
    as (_ & _ & Hr & _).
  - right. reflexivity.
  - reflexivity.
  - reflexivity.
  - vm_compute in Hr. discriminate Hr.
Qed.

(** The same app without the agent flag. *)
Lemma workflow_resolved_example :
  fst unpublished_call = Raise (ValueError "Workflow not published")
  /\ fst undrafted_call = Raise (ValueError "Workflow not initialized").
Proof.
  split.
  - destruct (workflow_resolved_unless_agent unbilled workflow_app "user" "args" NORMAL
                true idle (fst unpublished_call) (snd unpublished_call))
      as (_ & _ & Hr & _);
      [right; reflexivity | reflexivity | reflexivity | reflexivity |].
    exact Hr.
  - destruct (workflow_resolved_unless_agent unbilled workflow_app "user" "args" DEBUGGER
                true idle (fst undrafted_call) (snd undrafted_call))
      as (_ & _ & Hr & _);
      [right; reflexivity | reflexivity | reflexivity | reflexivity |].
    exact Hr.
Defined.

(** An app in the unknown mode "podcast" that is flagged as an agent: the
    request is served by the agent chat generator. *)
Lemma agent_flag_overrides_unknown_mode : ~ unknown_modes_rejected unbilled.
Proof.
  intros H.
  destruct (H agent_podcast_app "user" "args" NORMAL true idle
              (fst agent_podcast_call) (snd agent_podcast_call))
    as (Hr & _).
  - vm_compute. intros Hin. absent Hin.
  - reflexivity.
  - reflexivity.
  - vm_compute in Hr. discriminate Hr.
Qed.

(** The same app without the agent flag. *)
Lemma unknown_mode_rejected_example :
  fst podcast_call = Raise (ValueError "Invalid app mode podcast").
Proof.
  destruct (unknown_mode_rejected_unless_agent unbilled podcast_app "user" "args" NORMAL
              true idle (fst podcast_call) (snd podcast_call))
    as (Hr & _).
  - vm_compute. intros Hin. absent Hin.
  - reflexivity.
  - reflexivity.
  - reflexivity.
  - exact Hr.
Defined.

End Runs.

(** ** Further properties of the service *)

Section Gate.

Context {User Args Workflow Payload : Type}.
Variable env : Env User Args Workflow Payload.

Implicit Types (st : State User Args Workflow) (app_model : App).

(** X1.  The ceiling of an app is never negative; it is positive and not
    above a limit that is positive, be it the own limit of the app or the
    global one; it is 0 (unlimited) exactly when neither limit is positive. *)
Theorem max_active_requests_bounds (app : App) :
  let app_limit := default 0 (max_active_requests app) in
  let config_limit := APP_MAX_ACTIVE_REQUESTS env in
  let ceiling := _get_max_active_requests env app in
  0 <= ceiling
  /\ (0 < app_limit -> 0 < ceiling <= app_limit)
  /\ (0 < config_limit -> 0 < ceiling <= config_limit)
  /\ (ceiling = 0 <-> app_limit <= 0 /\ config_limit <= 0).
Proof.
  intros app_limit config_limit ceiling. subst ceiling.
  rewrite max_active_requests_cases. cbv zeta. fold app_limit config_limit.
  destruct (Z.ltb_spec 0 app_limit); destruct (Z.ltb_spec 0 config_limit); lia.
Qed.

Lemma dispatch_calls_not_gate (d : list (@Call User Args Workflow)) :
  forallb is_dispatch_call d = true ->
  forallb (fun c => negb (is_gate_call c)) d = true.
Proof.
  rewrite !forallb_forall. intros H c Hc. specialize (H c Hc).
  destruct c; simpl in *; congruence.
Qed.

Lemma exits_not_gate client request_id n :
  forallb (fun c : @Call User Args Workflow => negb (is_gate_call c))
    (repeat (Exit client request_id) n) = true.
Proof. induction n; simpl; auto. Qed.

(** The calls of a run past the tenant gate, after the gate: none is a call
    of the gate. *)
Lemma after_gate_not_gate app_model (user : User) (args : Args) invoke_from
    streaming st st1 r st' :
  system_level_rate_limit env app_model st = (Return tt, st1) ->
  generate env app_model user args invoke_from streaming st = (r, st') ->
  exists rest,
    calls st' = calls st1 ++ rest
    /\ forallb (fun c => negb (is_gate_call c)) rest = true.
Proof.
  intros Hgate Hrun.
  destruct (generate_after_gate _ _ _ _ _ _ _ _ _ _ Hgate Hrun)
    as (r0 & d & _ & Hcalls & _ & Hd & _).
  eexists. split; [exact Hcalls|]. simpl.
  rewrite forallb_app, (dispatch_calls_not_gate _ Hd), exits_not_gate. reflexivity.
Qed.

Lemma not_gate_not_billing (rest : list (@Call User Args Workflow)) tenant :
  forallb (fun c => negb (is_gate_call c)) rest = true ->
  ~ In (BillingGetInfo tenant) rest.
Proof.
  rewrite forallb_forall. intros H Hin. specialize (H _ Hin). discriminate H.
Qed.

(** X2.  [generate] asks the billing service exactly when billing is
    enabled: then the plan of the tenant of the app is fetched once, as the
    first call of the run; with billing disabled no call is made on the
    billing service or on the tenant limiter and the counters are left as
    they were. *)
Theorem billing_service_asked_when_enabled app_model (user : User) (args : Args)
    invoke_from streaming st :
  let '(r, st') := generate env app_model user args invoke_from streaming st in
  if BILLING_ENABLED env
  then exists rest,
         since st st' = BillingGetInfo (tenant_id app_model) :: rest
         /\ forall tenant, ~ In (BillingGetInfo tenant) rest
  else forallb (fun c => negb (is_gate_call c)) (since st st') = true
       /\ counters st' = counters st.
Proof.
  destruct (generate env app_model user args invoke_from streaming st) as [r st'] eqn:Hrun.
  pose proof (gate_run env app_model st) as Hgate. cbv zeta in Hgate.
  destruct (BILLING_ENABLED env).
  - destruct (String.eqb _ "sandbox").
    + destruct (RateLimiter.is_rate_limited _ _ (counters st)).
      * rewrite generate_run, Hgate in Hrun. injection Hrun as <- <-.
        eexists. split.
        -- apply since_app. simpl. rewrite <- app_assoc. reflexivity.
        -- intros tenant [H|[]]. discriminate H.
      * destruct (after_gate_not_gate _ _ _ _ _ _ _ _ _ Hgate Hrun) as (rest & Hcalls & Hrest).
        eexists. split.
        -- apply since_app. rewrite Hcalls. simpl. rewrite <- !app_assoc. reflexivity.
        -- intros tenant [H|[H|H]]; try discriminate H.
           exact (not_gate_not_billing _ _ Hrest H).
    + destruct (after_gate_not_gate _ _ _ _ _ _ _ _ _ Hgate Hrun) as (rest & Hcalls & Hrest).
      eexists. split.
      * apply since_app. rewrite Hcalls. simpl. rewrite <- !app_assoc. reflexivity.
      * intros tenant. exact (not_gate_not_billing _ _ Hrest).
  - destruct (after_gate_not_gate _ _ _ _ _ _ _ _ _ Hgate Hrun) as (rest & Hcalls & Hrest).
    destruct (generate_after_gate _ _ _ _ _ _ _ _ _ _ Hgate Hrun)
      as (_ & _ & _ & _ & Hcount & _).
    split; [|exact Hcount].
    rewrite (since_app _ _ _ Hcalls). exact Hrest.
Qed.

End Gate.

Section Outcomes.

Context {User Args Workflow Payload : Type}.
Variable env : Env User Args Workflow Payload.

Implicit Types (st : State User Args Workflow) (app_model : App).

Lemma no_invoke_filter (cs : list (@Call User Args Workflow)) :
  forallb (fun c => negb (is_invoke c)) cs = true ->
  List.filter is_invoke cs = [].
Proof.
  induction cs as [|c cs IH]; simpl; [reflexivity|].
  intros H. apply andb_prop in H as [Hc Hcs].
  destruct (is_invoke c); [discriminate Hc | auto].
Qed.

(** The calls of a run past the tenant gate, with the exact number of
    [exit]s. *)
Lemma past_gate_trace app_model (user : User) (args : Args) invoke_from streaming
    st r st' :
  tenant_gate_open env app_model st = true ->
  generate env app_model user args invoke_from streaming st = (r, st') ->
  let l := rate_limit_of env app_model in
  let request_id := uuid4 env (drawn st) in
  exists g r0 d,
    r = translated r0
    /\ since st st' = g ++ Enter (app_id app_model) request_id :: d
                       ++ repeat (Exit (app_id app_model) request_id) (releases streaming r0)
    /\ forallb is_gate_call g = true
    /\ forallb is_dispatch_call d = true
    /\ (forall t, t <> tenant_id app_model -> counters st' !! t = counters st !! t)
    /\ if RateLimit.has_room l (tickets st)
       then tickets st' = match releases streaming r0 with
                          | O => {[RateLimit.ticket l request_id]} ∪ tickets st
                          | S _ => ({[RateLimit.ticket l request_id]} ∪ tickets st)
                                   ∖ {[RateLimit.ticket l request_id]}
                          end
            /\ ((exists d0 c, d = d0 ++ [Invoke c]
                   /\ forallb (fun c => negb (is_invoke c)) d0 = true
                   /\ r0 = served env l request_id c)
                \/ (forallb (fun c => negb (is_invoke c)) d = true
                    /\ exists m, r0 = Raise (ValueError m)))
       else d = []
            /\ r0 = Raise (ConcurrencyLimitExceeded (app_id app_model)
                             (_get_max_active_requests env app_model))
            /\ tickets st' = tickets st ∖ {[RateLimit.ticket l request_id]}.
Proof.
  intros Hopen Hrun l request_id.
  pose proof (gate_run env app_model st) as Hexact. cbv zeta in Hexact.
  destruct (gate_passes _ _ _ Hopen) as (st1 & g & Hgate & Ht1 & Hd1 & Hc1 & Hg).
  destruct (generate_after_gate _ _ _ _ _ _ _ _ _ _ Hgate Hrun)
    as (r0 & d & Hr & Hcalls & Hcount & Hd & Hroom).
  rewrite Hd1, Ht1 in *. fold l request_id in Hcalls, Hroom.
  exists g, r0, d. split; [exact Hr|]. split.
  { apply since_app. rewrite Hcalls, Hc1, <- app_assoc. reflexivity. }
  split; [exact Hg|]. split; [exact Hd|]. split.
  { intros t Ht. rewrite Hcount. rewrite Hgate in Hexact.
    destruct (BILLING_ENABLED env); [|injection Hexact as ->; reflexivity].
    destruct (String.eqb _ "sandbox"); [|injection Hexact as ->; reflexivity].
    destruct (RateLimiter.is_rate_limited _ _ (counters st)); [discriminate Hexact|].
    injection Hexact as ->. simpl. unfold RateLimiter.increment_rate_limit.
    apply lookup_insert_ne. congruence. }
  destruct (RateLimit.has_room l (tickets st)).
  - destruct Hroom as (_ & Htickets & Hout). split; assumption.
  - exact Hroom.
Qed.

(** X3.  A request that passes the tenant gate and finds the governor
    full fails with the concurrency error, which carries the app and its
    ceiling, whatever the mode of the app: after [enter] no workflow is
    looked up and no strategy is invoked, and [exit] is called on the
    refused token, once with [streaming] and twice without. *)
Theorem refused_request_short_circuits app_model (user : User) (args : Args)
    invoke_from streaming st r st' :
  tenant_gate_open env app_model st = true ->
  RateLimit.has_room (rate_limit_of env app_model) (tickets st) = false ->
  generate env app_model user args invoke_from streaming st = (r, st') ->
  let request_id := uuid4 env (drawn st) in
  r = Raise (ConcurrencyLimitExceeded (app_id app_model)
               (_get_max_active_requests env app_model))
  /\ exists g,
       since st st'
       = g ++ Enter (app_id app_model) request_id
           :: repeat (Exit (app_id app_model) request_id) (if streaming then 1 else 2)%nat
       /\ forallb is_gate_call g = true.
Proof.
  intros Hopen Hfull Hrun request_id.
  destruct (past_gate_trace _ _ _ _ _ _ _ _ Hopen Hrun)
    as (g & r0 & d & Hr & Hs & Hg & _ & _ & Hroom).
  rewrite Hfull in Hroom. destruct Hroom as (-> & -> & _).
  split; [exact Hr|]. exists g. split; [|exact Hg].
  rewrite Hs. simpl. destruct streaming; reflexivity.
Qed.

(** X4.  [generate] returns a response only when the request was admitted
    and its strategy returned: the response is the converted output of the
    strategy handed to the governor with the admitted token; the strategy
    is the only one invoked; with [streaming] no [exit] is made and the
    ticket is still active on return, without it [exit] is called once,
    right after the strategy. *)
Theorem returned_response_comes_from_strategy app_model (user : User) (args : Args)
    invoke_from streaming st (response : @Response Payload) st' :
  generate env app_model user args invoke_from streaming st = (Return response, st') ->
  let l := rate_limit_of env app_model in
  let request_id := uuid4 env (drawn st) in
  admitted env app_model st = true
  /\ exists c out before,
       run env c = Return out
       /\ response = rate_limit_generate l
                       (convert_to_event_stream env (generator_of c) out) request_id
       /\ since st st'
          = before ++ Invoke c
              :: (if streaming then [] else [Exit (app_id app_model) request_id])
       /\ In (Enter (app_id app_model) request_id) before
       /\ forallb (fun c => negb (is_invoke c || is_exit_call c)) before = true
       /\ (RateLimit.ticket l request_id ∈ tickets st' <-> streaming = true).
Proof.
  intros Hrun l request_id.
  destruct (tenant_gate_open env app_model st) eqn:Hopen.
  2: { destruct (generate_gate_closed _ _ _ _ _ _ _ _ _ Hopen Hrun) as [H _].
       discriminate H. }
  destruct (past_gate_trace _ _ _ _ _ _ _ _ Hopen Hrun)
    as (g & r0 & d & Hr & Hs & Hg & Hd & _ & Hroom).
  fold l request_id in Hs, Hroom.
  destruct r0 as [a|e]; [|simpl in Hr; destruct (is_RateLimitError e); discriminate Hr].
  injection Hr as ->.
  unfold admitted. rewrite Hopen. simpl. fold l.
  destruct (RateLimit.has_room l (tickets st)); [|destruct Hroom as (_ & H & _); discriminate H].
  destruct Hroom as (Htickets & [(d0 & c & -> & Hd0 & Hserved)|(_ & m & H)]);
    [|discriminate H].
  split; [reflexivity|].
  unfold served in Hserved. destruct (run env c) as [out|e] eqn:Hout; [|discriminate Hserved].
  injection Hserved as ->.
  exists c, out, (g ++ Enter (app_id app_model) request_id :: d0).
  split; [exact Hout|]. split; [reflexivity|]. split.
  { rewrite Hs, <- !app_assoc. simpl. destruct streaming; reflexivity. }
  split. { apply in_or_app. right. left. reflexivity. }
  split.
  { rewrite forallb_app in Hd. apply andb_prop in Hd as [Hd _].
    rewrite forallb_app. simpl. apply andb_true_intro. split.
    - rewrite forallb_forall in *. intros x Hx. specialize (Hg x Hx).
      destruct x; simpl in *; congruence.
    - rewrite forallb_forall in *. intros x Hx. specialize (Hd x Hx).
      specialize (Hd0 x Hx). destruct x; simpl in *; congruence. }
  rewrite Htickets. destruct streaming; simpl.
  - split; [reflexivity|]. intros _. apply ticket_held.
  - split; [|discriminate]. intros H. exfalso. exact (ticket_released _ _ H).
Qed.

(** X5.  A call of [generate] that fails with an instance of [Exception]
    other than the rate limit error has passed the tenant gate, and [exit]
    was called on the token of the request by the handler, and once more by
    the final block when [streaming] is off: the run ends with one,
    respectively two, [exit]s, no other [exit] is made, and the ticket is
    not active. *)
Theorem failure_releases_ticket app_model (user : User) (args : Args)
    invoke_from streaming st e st' :
  generate env app_model user args invoke_from streaming st = (Raise e, st') ->
  (forall description, e <> InvokeRateLimitError description) ->
  is_Exception e = true ->
  let request_id := uuid4 env (drawn st) in
  tenant_gate_open env app_model st = true
  /\ (exists before,
        since st st'
        = before ++ repeat (Exit (app_id app_model) request_id)
                      (if streaming then 1 else 2)%nat
        /\ forallb (fun c => negb (is_exit_call c)) before = true)
  /\ RateLimit.ticket (rate_limit_of env app_model) request_id ∉ tickets st'.
Proof.
  intros Hrun Hkind Hcaught request_id.
  destruct (tenant_gate_open env app_model st) eqn:Hopen.
  2: { destruct (generate_gate_closed _ _ _ _ _ _ _ _ _ Hopen Hrun) as [H _].
       injection H as ->. exfalso. exact (Hkind _ eq_refl). }
  destruct (past_gate_trace _ _ _ _ _ _ _ _ Hopen Hrun)
    as (g & r0 & d & Hr & Hs & Hg & Hd & _ & Hroom).
  fold request_id in Hs, Hroom.
  destruct r0 as [a|e0]; [discriminate Hr|].
  simpl in Hr. destruct (is_RateLimitError e0) eqn:Hrle.
  { injection Hr as ->. exfalso. exact (Hkind _ eq_refl). }
  injection Hr as ->.
  assert (Hn : releases streaming (Raise e0 : Res (@Response Payload))
               = (if streaming then 1 else 2)%nat).
  { unfold releases. rewrite Hrle, Hcaught. destruct streaming; reflexivity. }
  split; [reflexivity|]. split.
  - exists (g ++ Enter (app_id app_model) request_id :: d). split.
    + rewrite Hs, Hn, <- app_assoc. reflexivity.
    + rewrite forallb_app. simpl.
      rewrite (gate_calls_not_exit _ Hg), (not_invoke_not_exit _ Hd). reflexivity.
  - unfold releases in Hroom. rewrite Hrle, Hcaught in Hroom. simpl in Hroom.
    destruct (RateLimit.has_room _ (tickets st)).
    + destruct Hroom as (-> & _). apply ticket_released.
    + destruct Hroom as (_ & _ & ->). apply ticket_released.
Qed.

(** X6.  A strategy runs only for a request that passed the tenant gate
    and was admitted by the governor, after the [enter] of its token, and
    it is the only strategy of the run. *)
Theorem strategy_requires_admission app_model (user : User) (args : Args)
    invoke_from streaming st r st' c :
  generate env app_model user args invoke_from streaming st = (r, st') ->
  In (Invoke c) (since st st') ->
  admitted env app_model st = true
  /\ List.filter is_invoke (since st st') = [Invoke c]
  /\ exists before after,
       since st st' = before ++ Invoke c :: after
       /\ In (Enter (app_id app_model) (uuid4 env (drawn st))) before.
Proof.
  intros Hrun Hin.
  destruct (generate_invoked _ _ _ _ _ _ _ _ _ _ Hrun Hin)
    as (Hadm & _ & (before & Hs & _ & Henter) & _).
  split; [exact Hadm|]. split; [|eauto].
  apply andb_prop in Hadm as [Hopen Hroom].
  destruct (past_gate_trace _ _ _ _ _ _ _ _ Hopen Hrun)
    as (g & r0 & d & _ & Hs' & Hg & _ & _ & Hcase).
  rewrite Hroom in Hcase. rewrite Hs' in Hin |- *.
  assert (Hexits : forall n, List.filter is_invoke
                     (repeat (Exit (User:=User) (Args:=Args) (Workflow:=Workflow)
                                (app_id app_model) (uuid4 env (drawn st))) n) = []).
  { induction n; simpl; auto. }
  rewrite List.filter_app. simpl. rewrite List.filter_app, Hexits, app_nil_r.
  rewrite (no_invoke_filter _ (gate_calls_no_invoke _ Hg)). simpl.
  destruct Hcase as (_ & [(d0 & c' & -> & Hd0 & _)|(Hnone & _)]).
  - rewrite List.filter_app, (no_invoke_filter _ Hd0). simpl.
    apply in_app_or in Hin as [Hin|[Hin|Hin]].
    + exfalso. exact (gate_calls_not_invoke _ _ Hg Hin).
    + discriminate Hin.
    + apply in_app_or in Hin as [Hin|Hin].
      * apply in_app_or in Hin as [Hin|[Hin|[]]].
        -- exfalso. exact (not_invoke_not_in _ _ Hd0 Hin).
        -- congruence.
      * exfalso. exact (exits_not_invoke _ _ _ _ Hin).
  - exfalso. apply in_app_or in Hin as [Hin|[Hin|Hin]].
    + exact (gate_calls_not_invoke _ _ Hg Hin).
    + discriminate Hin.
    + apply in_app_or in Hin as [Hin|Hin].
      * exact (not_invoke_not_in _ _ Hnone Hin).
      * exact (exits_not_invoke _ _ _ _ Hin).
Qed.

(** X7.  A call of [generate] touches the ticket of its own request and
    the counter of its own tenant only: every [enter] and [exit] of the
    run is on the token drawn for the request, every other ticket is active
    afterwards exactly when it was before, and the counter of every other
    tenant is left as it was. *)
Theorem generate_frame app_model (user : User) (args : Args) invoke_from streaming st :
  let '(r, st') := generate env app_model user args invoke_from streaming st in
  let request_id := uuid4 env (drawn st) in
  (forall c, In c (since st st') -> is_ticket_call c = true ->
             c = Enter (app_id app_model) request_id
             \/ c = Exit (app_id app_model) request_id)
  /\ (forall k, k <> RateLimit.ticket (rate_limit_of env app_model) request_id ->
                (k ∈ tickets st' <-> k ∈ tickets st))
  /\ (forall t, t <> tenant_id app_model -> counters st' !! t = counters st !! t).
Proof.
  destruct (generate env app_model user args invoke_from streaming st) as [r st'] eqn:Hrun.
  intros request_id.
  destruct (tenant_gate_open env app_model st) eqn:Hopen.
  - destruct (past_gate_trace _ _ _ _ _ _ _ _ Hopen Hrun)
      as (g & r0 & d & _ & Hs & Hg & Hd & Hcount & Hroom).
    fold request_id in Hs, Hroom.
    split; [|split; [|exact Hcount]].
    + intros c Hin Hc. rewrite Hs in Hin.
      apply in_app_or in Hin as [Hin|[Hin|Hin]].
      * rewrite forallb_forall in Hg. specialize (Hg _ Hin).
        destruct c; discriminate.
      * left. symmetry. exact Hin.
      * apply in_app_or in Hin as [Hin|Hin].
        -- rewrite forallb_forall in Hd. specialize (Hd _ Hin).
           destruct c; discriminate.
        -- right. apply repeat_spec in Hin. exact Hin.
    + intros k Hk.
      destruct (RateLimit.has_room _ (tickets st)).
      * destruct Hroom as (-> & _).
        destruct (releases streaming r0);
          rewrite ?elem_of_difference, elem_of_union, elem_of_singleton; tauto.
      * destruct Hroom as (_ & _ & ->).
        rewrite elem_of_difference, elem_of_singleton. tauto.
  - rewrite generate_run, (gate_rejects _ _ _ Hopen) in Hrun. injection Hrun as <- <-.
    split; [|split; [reflexivity|reflexivity]].
    intros c Hin Hc.
    rewrite (since_app st _ [BillingGetInfo (tenant_id app_model);
                             IsRateLimited (tenant_id app_model)]) in Hin.
    + destruct Hin as [<-|[<-|[]]]; discriminate Hc.
    + simpl. rewrite <- app_assoc. reflexivity.
Qed.

End Outcomes.

Section Routing.

Context {User Args Workflow Payload : Type}.
Variable env : Env User Args Workflow Payload.

Implicit Types (st : State User Args Workflow) (app_model : App).

(** The first two branches of the dispatch. *)
Lemma dispatch_completion_mode app_model (user : User) (args : Args) invoke_from streaming
    l request_id st :
  mode app_model = AppMode.COMPLETION ->
  let c := Generate CompletionAppGenerator app_model None user args invoke_from streaming in
  dispatch env app_model user args invoke_from streaming l request_id st
  = (served env l request_id c, log (Invoke c) st).
Proof.
  intros E c. unfold dispatch. rewrite E. simpl.
  unfold bind, invoke, served, ret. subst c. simpl.
  match goal with |- context [run env ?c] => destruct (run env c) end; reflexivity.
Qed.

Lemma dispatch_agent_flag app_model (user : User) (args : Args) invoke_from streaming
    l request_id st :
  mode app_model <> AppMode.COMPLETION ->
  is_agent app_model = true ->
  let c := Generate AgentChatAppGenerator app_model None user args invoke_from streaming in
  dispatch env app_model user args invoke_from streaming l request_id st
  = (served env l request_id c, log (Invoke c) st).
Proof.
  intros E Hagent c. unfold dispatch. rewrite Hagent, orb_true_r.
  destruct (String.eqb_spec (mode app_model) AppMode.COMPLETION) as [E'|_];
    [contradiction|].
  unfold bind, invoke, served, ret. subst c. simpl.
  match goal with |- context [run env ?c] => destruct (run env c) end; reflexivity.
Qed.

(** A run of [generate] for an admitted request whose dispatch goes
    straight to one strategy. *)
Lemma admitted_direct_run app_model (user : User) (args : Args) invoke_from streaming
    st r st' c :
  admitted env app_model st = true ->
  (forall l request_id s,
     dispatch env app_model user args invoke_from streaming l request_id s
     = (served env l request_id c, log (Invoke c) s)) ->
  generate env app_model user args invoke_from streaming st = (r, st') ->
  let l := rate_limit_of env app_model in
  let request_id := uuid4 env (drawn st) in
  r = translated (served env l request_id c)
  /\ exists g,
       since st st'
       = g ++ Enter (app_id app_model) request_id :: Invoke c
           :: repeat (Exit (app_id app_model) request_id)
                (releases streaming (served env l request_id c))
       /\ forallb is_gate_call g = true.
Proof.
  intros Hadm Hdirect Hrun l request_id.
  apply andb_prop in Hadm as [Hopen Hroom].
  destruct (gate_passes _ _ _ Hopen) as (st1 & g & Hgate & Ht1 & Hd1 & Hc1 & Hg).
  destruct (generate_after_gate _ _ _ _ _ _ _ _ _ _ Hgate Hrun)
    as (r0 & d & Hr & Hcalls & _ & _ & Hcase).
  rewrite Ht1, Hroom in Hcase. destruct Hcase as ((st2 & Hdis & Hd) & _ & _).
  rewrite Hdirect in Hdis. injection Hdis as <- <-.
  simpl in Hd. apply app_inv_head in Hd. subst d.
  rewrite Hd1 in *. fold l request_id in Hr, Hcalls.
  split; [exact Hr|]. exists g. split; [|exact Hg].
  apply since_app. rewrite Hcalls, Hc1, <- app_assoc. reflexivity.
Qed.

(** X8.  The test on the completion mode comes first: an admitted request
    on an app in mode completion is served by the completion generator,
    without a workflow, whether or not the app is flagged as an agent. *)
Theorem completion_mode_precedes_agent_flag app_model (user : User) (args : Args)
    invoke_from streaming st r st' :
  mode app_model = AppMode.COMPLETION ->
  admitted env app_model st = true ->
  generate env app_model user args invoke_from streaming st = (r, st') ->
  let c := Generate CompletionAppGenerator app_model None user args invoke_from streaming in
  List.filter is_dispatch_call (since st st') = [Invoke c]
  /\ r = translated (served env (rate_limit_of env app_model) (uuid4 env (drawn st)) c).
Proof.
  intros Hmode Hadm Hrun c.
  destruct (admitted_direct_run app_model user args invoke_from streaming st r st' c Hadm)
    as (Hr & g & Hs & Hg); [|exact Hrun|].
  { intros l request_id s. apply dispatch_completion_mode. exact Hmode. }
  split; [|exact Hr]. rewrite Hs, List.filter_app. simpl.
  assert (Hgd : List.filter is_dispatch_call g = []).
  { clear Hs. induction g as [|x g IH]; simpl; [reflexivity|].
    simpl in Hg. apply andb_prop in Hg as [Hx Hg].
    destruct x; try discriminate Hx; simpl; auto. }
  rewrite Hgd. simpl. f_equal.
  generalize (releases streaming (served env (rate_limit_of env app_model)
                                   (uuid4 env (drawn st)) c)).
  intros n. induction n; simpl; auto.
Qed.

(** X9.  The agent flag overrides every mode but completion: an admitted
    request on an app that is flagged as an agent and is not in mode
    completion is served by the agent chat generator, without a workflow
    and without a workflow lookup, whatever its mode (chat, advanced-chat,
    workflow, or a mode outside the supported set). *)
Theorem agent_flag_routes_to_agent_chat app_model (user : User) (args : Args)
    invoke_from streaming st r st' :
  is_agent app_model = true ->
  mode app_model <> AppMode.COMPLETION ->
  admitted env app_model st = true ->
  generate env app_model user args invoke_from streaming st = (r, st') ->
  let c := Generate AgentChatAppGenerator app_model None user args invoke_from streaming in
  List.filter is_dispatch_call (since st st') = [Invoke c]
  /\ r = translated (served env (rate_limit_of env app_model) (uuid4 env (drawn st)) c).
Proof.
  intros Hagent Hmode Hadm Hrun c.
  destruct (admitted_direct_run app_model user args invoke_from streaming st r st' c Hadm)
    as (Hr & g & Hs & Hg); [|exact Hrun|].
  { intros l request_id s. apply dispatch_agent_flag; assumption. }
  split; [|exact Hr]. rewrite Hs, List.filter_app. simpl.
  assert (Hgd : List.filter is_dispatch_call g = []).
  { clear Hs. induction g as [|x g IH]; simpl; [reflexivity|].
    simpl in Hg. apply andb_prop in Hg as [Hx Hg].
    destruct x; try discriminate Hx; simpl; auto. }
  rewrite Hgd. simpl. f_equal.
  generalize (releases streaming (served env (rate_limit_of env app_model)
                                   (uuid4 env (drawn st)) c)).
  intros n. induction n; simpl; auto.
Qed.

End Routing.

Section SingleStep.

Context {User Args Workflow Payload : Type}.
Variable env : Env User Args Workflow Payload.

Implicit Types (st : State User Args Workflow) (app_model : App).

(** X10.  The debug entry points serve the two workflow modes only: on an
    app in any other mode, the modes chat, completion and agent-chat of
    [generate] included and whatever the agent flag, both fail with the
    mode error, which carries the mode, and make no call at all. *)
Theorem single_step_rejects_other_modes app_model (user : User) node_id (args : Args)
    streaming st :
  mode app_model <> AppMode.ADVANCED_CHAT ->
  mode app_model <> AppMode.WORKFLOW ->
  generate_single_iteration env app_model user node_id args streaming st
  = (Raise (ValueError ("Invalid app mode " +:+ mode app_model)), st)
  /\ generate_single_loop env app_model user node_id args streaming st
     = (Raise (ValueError ("Invalid app mode " +:+ mode app_model)), st).
Proof.
  intros Ha Hw. unfold generate_single_iteration, generate_single_loop.
  destruct (String.eqb_spec (mode app_model) AppMode.ADVANCED_CHAT); [contradiction|].
  destruct (String.eqb_spec (mode app_model) AppMode.WORKFLOW); [contradiction|].
  split; reflexivity.
Qed.

(** A debug entry point on a workflow mode, for either strategy method. *)
Lemma single_step_workflow_run
    (method : AppGenerator -> App -> Workflow -> string -> User -> Args -> bool ->
              StrategyCall)
    app_model (user : User) node_id (args : Args) streaming st :
  mode app_model = AppMode.ADVANCED_CHAT \/ mode app_model = AppMode.WORKFLOW ->
  (if String.eqb (mode app_model) AppMode.ADVANCED_CHAT then
     bind (_get_workflow env app_model DEBUGGER) (fun workflow =>
     bind (invoke env (method AdvancedChatAppGenerator app_model workflow node_id user
                         args streaming)) (fun out =>
     ret (convert_to_event_stream env AdvancedChatAppGenerator out)))
   else if String.eqb (mode app_model) AppMode.WORKFLOW then
     bind (_get_workflow env app_model DEBUGGER) (fun workflow =>
     bind (invoke env (method WorkflowAppGenerator app_model workflow node_id user
                         args streaming)) (fun out =>
     ret (convert_to_event_stream env AdvancedChatAppGenerator out)))
   else raise (ValueError ("Invalid app mode " +:+ mode app_model))) st
  = match get_draft_workflow env app_model with
    | None => (Raise (ValueError "Workflow not initialized"),
               log (GetDraftWorkflow (app_id app_model)) st)
    | Some workflow =>
        let c := method (workflow_generator (mode app_model)) app_model workflow node_id
                   user args streaming in
        (match run env c with
         | Return out => Return (convert_to_event_stream env AdvancedChatAppGenerator out)
         | Raise e => Raise e
         end,
         log (Invoke c) (log (GetDraftWorkflow (app_id app_model)) st))
    end.
Proof.
  intros [E|E]; unfold workflow_generator; rewrite E; simpl;
    unfold bind at 1; rewrite get_workflow_run; simpl;
    destruct (get_draft_workflow env app_model); try reflexivity;
    unfold bind, invoke, ret; simpl;
    match goal with |- context [run env ?c] => destruct (run env c) end; reflexivity.
Qed.

(** X11.  On a workflow mode the debug entry points work on the draft
    workflow and never ask for the published one.  Without a draft they
    fail with "Workflow not initialized" after the lookup alone.  With a
    draft they run the generator of the mode on it, and every exception of
    the strategy, the provider throttling error included, reaches the
    caller as it is: nothing is translated. *)
Theorem single_step_runs_on_draft app_model (user : User) node_id (args : Args)
    streaming st :
  mode app_model = AppMode.ADVANCED_CHAT \/ mode app_model = AppMode.WORKFLOW ->
  let g := workflow_generator (mode app_model) in
  let '(r1, st1) := generate_single_iteration env app_model user node_id args streaming st in
  let '(r2, st2) := generate_single_loop env app_model user node_id args streaming st in
  match get_draft_workflow env app_model with
  | None =>
      r1 = Raise (ValueError "Workflow not initialized")
      /\ r2 = Raise (ValueError "Workflow not initialized")
      /\ since st st1 = [GetDraftWorkflow (app_id app_model)]
      /\ since st st2 = [GetDraftWorkflow (app_id app_model)]
  | Some draft =>
      let c1 := SingleIterationGenerate g app_model draft node_id user args streaming in
      let c2 := SingleLoopGenerate g app_model draft node_id user args streaming in
      since st st1 = [GetDraftWorkflow (app_id app_model); Invoke c1]
      /\ since st st2 = [GetDraftWorkflow (app_id app_model); Invoke c2]
      /\ (forall e, run env c1 = Raise e -> r1 = Raise e)
      /\ (forall e, run env c2 = Raise e -> r2 = Raise e)
      /\ (forall out, run env c1 = Return out ->
            r1 = Return (convert_to_event_stream env AdvancedChatAppGenerator out))
      /\ (forall out, run env c2 = Return out ->
            r2 = Return (convert_to_event_stream env AdvancedChatAppGenerator out))
  end.
Proof.
  intros Hmode g.
  pose proof (single_step_workflow_run SingleIterationGenerate app_model user node_id args
                streaming st Hmode) as H1.
  pose proof (single_step_workflow_run SingleLoopGenerate app_model user node_id args
                streaming st Hmode) as H2.
  fold (generate_single_iteration env app_model user node_id args streaming) in H1.
  fold (generate_single_loop env app_model user node_id args streaming) in H2.
  rewrite H1, H2. fold g.
  destruct (get_draft_workflow env app_model) as [draft|].
  - cbv zeta. split; [|split].
    + apply since_app. simpl. rewrite <- app_assoc. reflexivity.
    + apply since_app. simpl. rewrite <- app_assoc. reflexivity.
    + repeat split; intros x Hx; rewrite Hx; reflexivity.
  - repeat split; apply since_app; reflexivity.
Qed.

End SingleStep.

(** ** The further properties on concrete runs *)

Section MoreRuns.

Import Scenario.

Ltac pick := repeat first [left; reflexivity | right].

(** The governor holds two tickets of "app-1", whose ceiling is 2. *)
Lemma refused_request_example :
  fst refused_call = Raise (ConcurrencyLimitExceeded "app-1" 2)
  /\ since busy (snd refused_call)
     = [BillingGetInfo "tenant-1"; IsRateLimited "tenant-1"; IncrementRateLimit "tenant-1";
        Enter "app-1" "request-0"; Exit "app-1" "request-0"; Exit "app-1" "request-0"].
Proof.
  destruct (refused_request_short_circuits eventful chat_app "user" "args" NORMAL false busy
              (fst refused_call) (snd refused_call))
    as (Hr & g & Hs & _); [reflexivity | reflexivity | reflexivity |].
  split; [exact Hr | reflexivity].
Defined.

(** A streaming chat request that produces two events. *)
Lemma returned_response_example :
  fst served_stream
  = Return (RateLimitGenerator (RateLimit.Build "app-1" 2) ["a"; "b"] "request-0")
  /\ ("app-1", "request-0") ∈ tickets (snd served_stream).
Proof.
  destruct (returned_response_comes_from_strategy eventful chat_app "user" "args" NORMAL true
              idle (RateLimitGenerator (RateLimit.Build "app-1" 2) ["a"; "b"] "request-0")
              (snd served_stream))
    as (_ & c & out & before & _ & _ & _ & _ & _ & Hticket); [reflexivity|].
  split; [reflexivity|]. apply Hticket. reflexivity.
Defined.

(** A streaming request on a workflow app without a published workflow. *)
Lemma failure_releases_ticket_example :
  fst unpublished_call = Raise (ValueError "Workflow not published")
  /\ ("app-1", "request-0") ∉ tickets (snd unpublished_call).
Proof.
  destruct (failure_releases_ticket unbilled workflow_app "user" "args" NORMAL true idle
              (ValueError "Workflow not published") (snd unpublished_call))
    as (_ & _ & Hticket); [reflexivity | discriminate | reflexivity |].
  split; [reflexivity | exact Hticket].
Defined.

(** The strategy of the streaming chat request. *)
Lemma strategy_requires_admission_example :
  admitted eventful chat_app idle = true
  /\ List.filter is_invoke (since idle (snd served_stream))
     = [Invoke (Generate ChatAppGenerator chat_app None "user" "args" NORMAL true)].
Proof.
  destruct (strategy_requires_admission eventful chat_app "user" "args" NORMAL true idle
              (fst served_stream) (snd served_stream)
              (Generate ChatAppGenerator chat_app None "user" "args" NORMAL true))
    as (Hadm & Hone & _); [reflexivity | vm_compute; pick |].
  split; [exact Hadm | exact Hone].
Defined.

(** A completion app that is flagged as an agent. *)
Lemma completion_mode_precedes_agent_flag_example :
  List.filter is_dispatch_call (since idle (snd agent_completion_call))
  = [Invoke (Generate CompletionAppGenerator agent_completion_app None "user" "args"
               NORMAL true)].
Proof.
  destruct (completion_mode_precedes_agent_flag unbilled agent_completion_app "user" "args"
              NORMAL true idle (fst agent_completion_call) (snd agent_completion_call))
    as (Hcalls & _); [reflexivity | reflexivity | reflexivity |].
  exact Hcalls.
Defined.

(** A workflow app that is flagged as an agent. *)
Lemma agent_flag_routes_to_agent_chat_example :
  List.filter is_dispatch_call (since idle (snd agent_workflow_call))
  = [Invoke (Generate AgentChatAppGenerator agent_workflow_app None "user" "args"
               NORMAL true)].
Proof.
  destruct (agent_flag_routes_to_agent_chat unbilled agent_workflow_app "user" "args"
              NORMAL true idle (fst agent_workflow_call) (snd agent_workflow_call))
    as (Hcalls & _); [reflexivity | discriminate | reflexivity | reflexivity |].
  exact Hcalls.
Defined.

(** A throttled completion request without streaming. *)
Lemma throttled_call_releases_ticket_example :
  fst throttled_call = Raise (InvokeRateLimitError "429")
  /\ ("app-1", "request-0") ∉ tickets (snd throttled_call).
Proof.
  destruct (throttled_call_releases_ticket throttled completion_app "user" "args" NORMAL idle
              (fst throttled_call) (snd throttled_call) (completion_call false) "429")
    as (Hr & _ & Hticket); [reflexivity | vm_compute; pick | reflexivity |].
  split; [exact Hr | exact Hticket].
Defined.

(** A throttled completion request with streaming. *)
Lemma throttled_stream_keeps_ticket_example :
  fst throttled_stream = Raise (InvokeRateLimitError "429")
  /\ ("app-1", "request-0") ∈ tickets (snd throttled_stream).
Proof.
  destruct (throttled_stream_keeps_ticket throttled completion_app "user" "args" NORMAL idle
              (fst throttled_stream) (snd throttled_stream) (completion_call true) "429")
    as (Hr & _ & Hticket); [reflexivity | vm_compute; pick | reflexivity |].
  split; [exact Hr | exact Hticket].
Defined.

(** A streaming completion request whose strategy is interrupted. *)
Lemma uncaught_error_skips_handler_example :
  fst interrupted_stream = Raise (NonException "KeyboardInterrupt" "")
  /\ ("app-1", "request-0") ∈ tickets (snd interrupted_stream).
Proof.
  destruct (uncaught_error_skips_handler interrupted completion_app "user" "args" NORMAL
              true idle (fst interrupted_stream) (snd interrupted_stream)
              (completion_call true) (NonException "KeyboardInterrupt" ""))
    as (Hr & _ & Hticket); [reflexivity | vm_compute; pick | reflexivity | reflexivity |].
  split; [exact Hr|]. apply Hticket. reflexivity.
Defined.

(** One iteration of a chat app. *)
Lemma single_step_rejects_other_modes_example :
  generate_single_iteration debugging chat_app "user" "node" "args" true idle
  = (Raise (ValueError "Invalid app mode chat"), idle).
Proof.
  destruct (single_step_rejects_other_modes debugging chat_app "user" "node" "args" true idle)
    as (Hiteration & _); [discriminate | discriminate |].
  exact Hiteration.
Defined.

(** One iteration of a workflow app without a draft; one iteration and one
    loop of a workflow app whose strategy is throttled. *)
Lemma single_step_runs_on_draft_example :
  fst undrafted_iteration = Raise (ValueError "Workflow not initialized")
  /\ fst throttled_iteration = Raise (RateLimitError "429")
  /\ fst throttled_loop = Raise (RateLimitError "429").
Proof.
  pose proof (single_step_runs_on_draft unbilled workflow_app "user" "node" "args" true idle
                (or_intror eq_refl)) as H1.
  pose proof (single_step_runs_on_draft throttled_debugging workflow_app "user" "node"
                "args" true idle (or_intror eq_refl)) as H2.
  split; [|split].
  - apply H1.
  - vm_compute in H2. apply H2. reflexivity.
  - vm_compute in H2. apply H2. reflexivity.
Defined.

End MoreRuns.
